(** * create_rtp_pcap.py: the RTP capture generator, embedded and verified

    The script packs fixed binary structures with Python's [struct] module,
    synthesises a 160-byte payload with binary64 arithmetic, and writes one
    capture header followed by 50 records to a file.  The embedding keeps the
    script's function names.  Python integers are [Z], a [bytes] object is a
    list of 8-bit [Z], floats are IEEE 754 binary64 values ([spec_float]),
    an exception is [None], and the output file is the log of the
    [f.write] calls. *)

From Stdlib Require Import String Ascii ZArith List Bool Lia.
From Stdlib Require Import Floats.SpecFloat.
Import ListNotations.
Local Open Scope Z_scope.

(** ** Python values used by the script *)

Definition bytes := list Z.

(** [len(b)] *)
Definition len (b : bytes) : Z := Z.of_nat (length b).

(** [range(n)]: the integers 0, 1, ..., n-1 (empty when n <= 0). *)
Definition range (n : Z) : list Z := map Z.of_nat (seq 0 (Z.to_nat n)).

(** [bytes(l)] for a list of integers: ValueError unless every element is in
    range(256). *)
Definition is_byte (z : Z) : bool := (0 <=? z) && (z <=? 255).

Definition py_bytes (l : list Z) : option bytes :=
  if forallb is_byte l then Some l else None.

(** The option monad carries exceptions of pure code. *)
Definition obind {A B} (o : option A) (k : A -> option B) : option B :=
  match o with Some a => k a | None => None end.

Fixpoint mapM {A B} (f : A -> option B) (l : list A) : option (list B) :=
  match l with
  | [] => Some []
  | a :: t => obind (f a) (fun b => obind (mapM f t) (fun bs => Some (b :: bs)))
  end.

(** ** The [struct] module: [struct.pack] for the codes the script uses *)

Module Struct.

Inductive byte_order := LittleEndian | BigEndian.

(** [B], [H], [L] are unsigned integers of 1, 2 and 4 bytes (standard
    sizes, no alignment, since every format of the script starts with
    [<] or [!]); [fs n] is [<n>s], a byte string of n bytes. *)
Inductive code := fB | fH | fL | fs (n : nat).

Inductive value := Int (z : Z) | Bytes (b : bytes).

Definition width (c : code) : nat :=
  match c with fB => 1 | fH => 2 | fL => 4 | fs n => n end.

Fixpoint le_bytes (n : nat) (z : Z) : bytes :=
  match n with
  | O => []
  | S n' => z mod 256 :: le_bytes n' (z / 256)
  end.

Definition encode (o : byte_order) (n : nat) (z : Z) : bytes :=
  match o with
  | LittleEndian => le_bytes n z
  | BigEndian => rev (le_bytes n z)
  end.

(** An integer outside the field's range raises [struct.error]: the value
    is never reduced modulo the field width. *)
Definition fits (n : nat) (z : Z) : bool :=
  (0 <=? z) && (z <? 2 ^ (8 * Z.of_nat n)).

Definition pack_one (o : byte_order) (c : code) (v : value) : option bytes :=
  match c, v with
  | fs n, Bytes b => Some (firstn n b ++ repeat 0 (n - length b))
  | fs _, Int _ => None
  | _, Int z => if fits (width c) z then Some (encode o (width c) z) else None
  | _, Bytes _ => None
  end.

Fixpoint pack_all (o : byte_order) (cs : list code) (vs : list value)
  : option bytes :=
  match cs, vs with
  | [], [] => Some []
  | c :: cs', v :: vs' =>
      obind (pack_one o c v) (fun b =>
      obind (pack_all o cs' vs') (fun r => Some (b ++ r)))
  | _, _ => None
  end.

(** Format strings: a byte-order character, then codes with an optional
    decimal repeat count. *)
Definition digit (c : ascii) : option nat :=
  let n := nat_of_ascii c in
  if ((48 <=? n) && (n <=? 57))%nat then Some (n - 48)%nat else None.

Definition count_or (d : nat) (c : option nat) : nat :=
  match c with Some n => n | None => d end.

Fixpoint parse_codes (s : string) (count : option nat) : option (list code) :=
  match s with
  | EmptyString => match count with None => Some [] | Some _ => None end
  | String c rest =>
      match digit c with
      | Some d => parse_codes rest (Some (10 * count_or 0 count + d)%nat)
      | None =>
          let n := count_or 1%nat count in
          obind (parse_codes rest None) (fun cs =>
            if Ascii.eqb c "B"%char then Some (repeat fB n ++ cs)
            else if Ascii.eqb c "H"%char then Some (repeat fH n ++ cs)
            else if Ascii.eqb c "L"%char then Some (repeat fL n ++ cs)
            else if Ascii.eqb c "s"%char then Some (fs n :: cs)
            else None)
      end
  end.

Definition parse_format (fmt : string) : option (byte_order * list code) :=
  match fmt with
  | String c rest =>
      if Ascii.eqb c "<"%char then
        obind (parse_codes rest None) (fun cs => Some (LittleEndian, cs))
      else if Ascii.eqb c "!"%char || Ascii.eqb c ">"%char then
        obind (parse_codes rest None) (fun cs => Some (BigEndian, cs))
      else None
  | EmptyString => None
  end.

Definition pack (fmt : string) (vs : list value) : option bytes :=
  obind (parse_format fmt) (fun '(o, cs) => pack_all o cs vs).

(** Readers of unsigned fields, used to state what a header declares. *)
Fixpoint le_value (b : bytes) : Z :=
  match b with
  | [] => 0
  | x :: t => x + 256 * le_value t
  end.

Definition be_value (b : bytes) : Z := le_value (rev b).

End Struct.

(** [b[off : off + n]] *)
Definition slice (off n : nat) (b : bytes) : bytes := firstn n (skipn off b).

(** ** Binary64 arithmetic *)

Module Float64.

Definition prec : Z := 53.
Definition emax : Z := 1024.

(** int -> float conversion of the operand of a mixed operation; the script
    converts only constants and offsets in [-9, 8], all exact. *)
Definition of_int (z : Z) : spec_float := binary_normalize prec emax z 0 false.

Definition add := SFadd prec emax.
Definition mul := SFmul prec emax.
Definition div := SFdiv prec emax.

(** The literal [0.8]: the binary64 number nearest to 8/10,
    0x3FE999999999999A. *)
Definition lit_0_8 : spec_float := S754_finite false 7205759403792794 (-53).

(** [a / b] on two ints: the correctly rounded quotient, ZeroDivisionError
    when b = 0, OverflowError when the quotient exceeds the binary64
    range. *)
Definition raw (z : Z) : spec_float :=
  match z with
  | Z0 => S754_zero false
  | Zpos p => S754_finite false p 0
  | Zneg p => S754_finite true p 0
  end.

Definition int_truediv (a b : Z) : option spec_float :=
  if b =? 0 then None
  else match SFdiv prec emax (raw a) (raw b) with
       | S754_infinity _ | S754_nan => None
       | q => Some q
       end.

(** [int(x)]: truncation toward zero; OverflowError on an infinity,
    ValueError on a NaN. *)
Definition to_int (x : spec_float) : option Z :=
  match x with
  | S754_zero _ => Some 0
  | S754_finite s m e =>
      let v := if 0 <=? e then Zpos m * 2 ^ e else Zpos m / 2 ^ (- e) in
      Some (if s then - v else v)
  | S754_infinity _ | S754_nan => None
  end.

End Float64.

(** A duration argument is a Python number: an int or a float. *)
Inductive pynum := PyInt (z : Z) | PyFloat (x : spec_float).

(** ** The script *)

Import Struct.

Definition create_pcap_header : option bytes :=
  pack "<LHHLLLL"%string
    [Int 0xa1b2c3d4;  (* magic number (microsecond precision) *)
     Int 2;           (* version major *)
     Int 4;           (* version minor *)
     Int 0;           (* thiszone *)
     Int 0;           (* sigfigs *)
     Int 65535;       (* snaplen *)
     Int 1].          (* network (Ethernet) *)

Definition create_ethernet_header : bytes :=
  [0x00; 0x01; 0x02; 0x03; 0x04; 0x05] ++   (* dst MAC *)
  [0x00; 0x0a; 0x0b; 0x0c; 0x0d; 0x0e] ++   (* src MAC *)
  [0x08; 0x00].                             (* IP EtherType *)

Definition create_ip_header (payload_length : Z) : option bytes :=
  let total_length := 20 + 8 + 12 + payload_length in
  pack "!BBHHHBBH4s4s"%string
    [Int 0x45;                          (* version (4) + IHL (5) *)
     Int 0;                             (* DSCP + ECN *)
     Int total_length;                  (* total length *)
     Int 0x1234;                        (* identification *)
     Int 0;                             (* flags + fragment offset *)
     Int 64;                            (* TTL *)
     Int 17;                            (* protocol (UDP) *)
     Int 0;                             (* checksum *)
     Bytes [0x7f; 0x00; 0x00; 0x01];    (* source IP (127.0.0.1) *)
     Bytes [0x7f; 0x00; 0x00; 0x01]].   (* dest IP (127.0.0.1) *)

Definition create_udp_header (payload_length : Z) : option bytes :=
  let udp_length := 8 + 12 + payload_length in
  pack "!HHHH"%string
    [Int 12345;        (* source port *)
     Int 6000;         (* destination port *)
     Int udp_length;   (* length *)
     Int 0].           (* checksum *)

Definition default_ssrc : Z := 0x12345678.

Definition create_rtp_header (seq_num timestamp ssrc : Z) : option bytes :=
  pack "!BBHLL"%string
    [Int 0x80;        (* V=2, P=0, X=0, CC=0 *)
     Int 8;           (* M=0, PT=8 (PCMA/G.711A) *)
     Int seq_num;     (* sequence number *)
     Int timestamp;   (* RTP timestamp *)
     Int ssrc].       (* SSRC *)

(** [int(8000 * duration_ms / 1000)] *)
Definition samples_per_packet (duration_ms : pynum) : option Z :=
  match duration_ms with
  | PyInt d =>
      obind (Float64.int_truediv (8000 * d) 1000) Float64.to_int
  | PyFloat x =>
      Float64.to_int
        (Float64.div (Float64.mul (Float64.of_int 8000) x) (Float64.of_int 1000))
  end.

(** [int(127 * (1 + 0.8 * ((i % 18) - 9) / 9))] *)
Definition sample (i : Z) : option Z :=
  Float64.to_int
    (Float64.mul (Float64.of_int 127)
       (Float64.add (Float64.of_int 1)
          (Float64.div
             (Float64.mul Float64.lit_0_8 (Float64.of_int (i mod 18 - 9)))
             (Float64.of_int 9)))).

(** [max(0, min(255, sample))] *)
Definition a_law_sample (i : Z) : option Z :=
  obind (sample i) (fun s => Some (Z.max 0 (Z.min 255 s))).

Definition generate_g711a_audio (duration_ms : pynum) : option bytes :=
  obind (samples_per_packet duration_ms) (fun n =>
  obind (mapM a_law_sample (range n)) py_bytes).

Definition create_pcap_record (packet_data : bytes)
    (timestamp_sec timestamp_usec : Z) : option bytes :=
  obind (pack "<LLLL"%string
           [Int timestamp_sec;       (* timestamp seconds *)
            Int timestamp_usec;      (* timestamp microseconds *)
            Int (len packet_data);   (* captured packet length *)
            Int (len packet_data)])  (* original packet length *)
        (fun h => Some (h ++ packet_data)).

(** ** The driver

    The output file is modelled by the log of the chunks passed to
    [f.write], oldest first; its contents are their concatenation.  A
    computation of the driver reads and extends the log and may raise. *)

Definition file := list bytes.

Definition contents (f : file) : bytes := concat f.

Definition IO (A : Type) : Type := file -> option (A * file).

Definition ret {A} (a : A) : IO A := fun f => Some (a, f).

Definition bind {A B} (m : IO A) (k : A -> IO B) : IO B :=
  fun f => match m f with
           | Some (a, f') => k a f'
           | None => None
           end.

(** A pure call that may raise. *)
Definition call {A} (o : option A) : IO A :=
  fun f => match o with Some a => Some (a, f) | None => None end.

(** [f.write(b)] *)
Definition write (b : bytes) : IO unit := fun f => Some (tt, f ++ [b]).

Declare Scope io_scope.
Delimit Scope io_scope with io.
Notation "x <- m ;; k" := (bind m (fun x => k))
  (at level 61, m at next level, right associativity) : io_scope.
Notation "m ;; k" := (bind m (fun _ => k))
  (at level 61, right associativity) : io_scope.

(** [for x in l: body], with the variables the body reassigns threaded
    through as [s]. *)
Fixpoint for_each {S} (l : list Z) (body : Z -> S -> IO S) (s : S) : IO S :=
  match l with
  | [] => ret s
  | x :: t => bind (body x s) (for_each t body)
  end.

(** One iteration of the loop of [main]; [rtp_timestamp] is the variable
    the body updates. *)
Definition packet_step (base_timestamp seq_num rtp_timestamp : Z) : IO Z :=
  (audio_payload <- call (generate_g711a_audio (PyInt 20)) ;;
   let ethernet := create_ethernet_header in
   ip <- call (create_ip_header (len audio_payload)) ;;
   udp <- call (create_udp_header (len audio_payload)) ;;
   rtp <- call (create_rtp_header (seq_num + 1000) rtp_timestamp default_ssrc) ;;
   let packet := ethernet ++ ip ++ udp ++ rtp ++ audio_payload in
   let packet_time_usec := seq_num * 20000 in
   let timestamp_sec := base_timestamp + packet_time_usec / 1000000 in
   let timestamp_usec := packet_time_usec mod 1000000 in
   record <- call (create_pcap_record packet timestamp_sec timestamp_usec) ;;
   write record ;;
   ret (rtp_timestamp + 160))%io.

(** [main], from opening the file (an empty log) to closing it.  [now] is
    the value of [int(time.time())].  The console messages and the optional
    tcpdump read-back that follow do not touch the file. *)
Definition main (now : Z) : IO unit :=
  (header <- call create_pcap_header ;;
   write header ;;
   let base_timestamp := now in
   let rtp_timestamp := 0 in
   _ <- for_each (range 50) (packet_step base_timestamp) rtp_timestamp ;;
   ret tt)%io.

(** The log of a run that starts at clock value [now]. *)
Definition run (now : Z) : option file := option_map snd (main now []).


(** ** Reading the produced records

    Field readers over one written record: the 16-byte record header, then
    the Ethernet (14), IP (20), UDP (8) and RTP (12) headers, then the
    payload. *)

Definition rec_ts_sec (r : bytes) : Z := le_value (slice 0 4 r).
Definition rec_ts_usec (r : bytes) : Z := le_value (slice 4 4 r).
Definition rec_incl_len (r : bytes) : Z := le_value (slice 8 4 r).
Definition rec_orig_len (r : bytes) : Z := le_value (slice 12 4 r).
Definition rec_frame (r : bytes) : bytes := skipn 16 r.

Definition ip_total_length (frame : bytes) : Z := be_value (slice (14 + 2) 2 frame).
Definition udp_length (frame : bytes) : Z := be_value (slice (14 + 20 + 4) 2 frame).
Definition rtp_seq (frame : bytes) : Z := be_value (slice (14 + 20 + 8 + 2) 2 frame).
Definition rtp_timestamp (frame : bytes) : Z := be_value (slice (14 + 20 + 8 + 4) 4 frame).
Definition rtp_payload (frame : bytes) : bytes := skipn (14 + 20 + 8 + 12) frame.

(** The records of a log: every write after the capture header. *)
Definition records (f : file) : list bytes := tl f.

(** A reader of the capture format, as a consumer of the file sees it:
    after the 24-byte capture header, each record is a 16-byte header whose
    captured-length field gives the number of frame bytes that follow.
    [fuel] bounds the number of records read. *)
Fixpoint read_records (fuel : nat) (b : bytes) : option (list bytes) :=
  match b, fuel with
  | [], _ => Some []
  | _, O => None
  | _, S fuel' =>
      let n := (16 + Z.to_nat (le_value (slice 8 4 b)))%nat in
      if (length b <? n)%nat then None
      else option_map (cons (firstn n b)) (read_records fuel' (skipn n b))
  end.

Definition read_pcap (b : bytes) : option (bytes * list bytes) :=
  if (length b <? 24)%nat then None
  else option_map (pair (firstn 24 b))
         (read_records (length b) (skipn 24 b)).

(** ** Closed forms used in the proofs *)

(** One period of the 18-sample pattern. *)
Definition tone_period : list Z :=
  [25; 36; 47; 59; 70; 81; 93; 104; 115; 127; 138; 149; 160; 172; 183; 194;
   206; 217].

Definition tone (i : Z) : Z := nth (Z.to_nat (i mod 18)) tone_period 0.

Definition audio_20ms : bytes := map tone (range 160).

Definition pcap_header_bytes : bytes :=
  [0xd4; 0xc3; 0xb2; 0xa1; 2; 0; 4; 0; 0; 0; 0; 0; 0; 0; 0; 0;
   0xff; 0xff; 0; 0; 1; 0; 0; 0].

Definition ip_header_bytes (payload_length : Z) : bytes :=
  [0x45; 0] ++ encode BigEndian 2 (20 + 8 + 12 + payload_length) ++
  [0x12; 0x34; 0; 0; 64; 17; 0; 0; 0x7f; 0; 0; 1; 0x7f; 0; 0; 1].

Definition udp_header_bytes (payload_length : Z) : bytes :=
  [0x30; 0x39; 0x17; 0x70] ++ encode BigEndian 2 (8 + 12 + payload_length) ++
  [0; 0].

Definition rtp_header_bytes (seq_num timestamp ssrc : Z) : bytes :=
  [0x80; 8] ++ encode BigEndian 2 seq_num ++ encode BigEndian 4 timestamp ++
  encode BigEndian 4 ssrc.

Definition record_header_bytes (sec usec n : Z) : bytes :=
  encode LittleEndian 4 sec ++ encode LittleEndian 4 usec ++
  encode LittleEndian 4 n ++ encode LittleEndian 4 n.

(** The frame and the record written by iteration [i] of the loop. *)
Definition frame_of (i : Z) : bytes :=
  create_ethernet_header ++ ip_header_bytes 160 ++ udp_header_bytes 160 ++
  rtp_header_bytes (i + 1000) (160 * i) default_ssrc ++ audio_20ms.

Definition record_of (now i : Z) : bytes :=
  record_header_bytes (now + i * 20000 / 1000000) (i * 20000 mod 1000000) 214
  ++ frame_of i.

(** Offsets, in the file, of the bytes of a record header's two timestamp
    fields: the capture header takes 24 bytes and every record 16 + 214. *)
Definition in_timestamp_field (k : nat) : Prop :=
  (24 <= k /\ (k - 24) mod 230 < 8)%nat.

(** Capture time of a record in microseconds, and the time from the first
    record of a log to the last. *)
Definition rec_time_usec (r : bytes) : Z := rec_ts_sec r * 1000000 + rec_ts_usec r.

Definition capture_span_usec (f : file) : Z :=
  rec_time_usec (last (records f) []) - rec_time_usec (hd [] (records f)).

(** The sequence numbers and media timestamps of a log, in write order. *)
Definition seq_numbers (f : file) : list Z :=
  map (fun r => rtp_seq (rec_frame r)) (records f).

Definition media_timestamps (f : file) : list Z :=
  map (fun r => rtp_timestamp (rec_frame r)) (records f).

(** [l] starts at [a] and each element exceeds its predecessor by [d]. *)
Definition arithmetic (a d : Z) (l : list Z) : Prop :=
  nth 0 l 0 = a /\
  forall k, (S k < length l)%nat -> nth (S k) l 0 - nth k l 0 = d.

Definition strictly_increasing (l : list Z) : Prop :=
  forall j k, (j < k < length l)%nat -> nth j l 0 < nth k l 0.

(** A duration is positive. *)
Definition positive_duration (d : pynum) : bool :=
  match d with
  | PyInt z => 0 <? z
  | PyFloat x => SFltb (S754_zero false) x
  end.

(** The float [0.1], 0x3FB999999999999A. *)
Definition lit_0_1 : spec_float := S754_finite false 7205759403792794 (-56).

(** Field readers over a header taken on its own. *)
Definition hdr_seq (h : bytes) : Z := be_value (slice 2 2 h).
Definition hdr_timestamp (h : bytes) : Z := be_value (slice 4 4 h).
Definition hdr_ssrc (h : bytes) : Z := be_value (slice 8 4 h).

(** The frame and the record one iteration writes when it is entered with
    sequence index [i] and media timestamp [ts]. *)
Definition frame_at (i ts : Z) : bytes :=
  create_ethernet_header ++ ip_header_bytes 160 ++ udp_header_bytes 160 ++
  rtp_header_bytes (i + 1000) ts default_ssrc ++ audio_20ms.

Definition record_at (now i ts : Z) : bytes :=
  record_header_bytes (now + i * 20000 / 1000000) (i * 20000 mod 1000000) 214
  ++ frame_at i ts.

(** The payloads of a log's records, in write order. *)
Definition payloads (f : file) : list bytes :=
  map (fun r => rtp_payload (rec_frame r)) (records f).

(** A packet to be recorded, with its capture time, and the record
    [create_pcap_record] makes of it. *)
Definition capture := (bytes * Z * Z)%type.

Definition build_record (x : capture) : option bytes :=
  let '(packet_data, sec, usec) := x in
  create_pcap_record packet_data sec usec.

Definition recordable (x : capture) : Prop :=
  let '(packet_data, sec, usec) := x in
  0 <= sec < 4294967296 /\ 0 <= usec < 4294967296 /\
  len packet_data < 4294967296.

(** The float path and the int path of the sample count agree at [d]. *)
Definition agrees_with_int (d : Z) : bool :=
  match samples_per_packet (PyFloat (Float64.of_int d)) with
  | Some n => n =? 8 * d
  | None => false
  end.

(** A frame of the run is [frame_head], six bytes of RTP counters, and
    [frame_tail]. *)
Definition frame_head : bytes :=
  create_ethernet_header ++ ip_header_bytes 160 ++ udp_header_bytes 160 ++
  [0x80; 8].

Definition frame_tail : bytes :=
  encode BigEndian 4 default_ssrc ++ audio_20ms.

(** ** [struct.pack] *)

Lemma le_bytes_length n z : length (le_bytes n z) = n.
Proof. revert z; induction n; intros; simpl; auto. Qed.

Lemma encode_length o n z : length (encode o n z) = n.
Proof. destruct o; simpl; rewrite ?length_rev; apply le_bytes_length. Qed.

Lemma le_value_le_bytes n z :
  0 <= z < 2 ^ (8 * Z.of_nat n) -> le_value (le_bytes n z) = z.
Proof.
  revert z; induction n as [|n IH]; intros z Hz.
  - simpl in *. lia.
  - cbn [le_bytes le_value].
    rewrite IH.
    + pose proof (Z.div_mod z 256). lia.
    + replace (8 * Z.of_nat (S n)) with (8 + 8 * Z.of_nat n) in Hz by lia.
      rewrite Z.pow_add_r in Hz by lia.
      change (2 ^ 8) with 256 in Hz.
      split; [apply Z.div_pos; lia|].
      apply Z.div_lt_upper_bound; lia.
Qed.

Lemma le_value_encode n z :
  0 <= z < 2 ^ (8 * Z.of_nat n) -> le_value (encode LittleEndian n z) = z.
Proof. apply le_value_le_bytes. Qed.

Lemma be_value_encode n z :
  0 <= z < 2 ^ (8 * Z.of_nat n) -> be_value (encode BigEndian n z) = z.
Proof.
  intros; unfold be_value, encode; rewrite rev_involutive.
  now apply le_value_le_bytes.
Qed.

Lemma le_bytes_is_byte n z : forallb is_byte (le_bytes n z) = true.
Proof.
  revert z; induction n; intros; simpl; auto.
  rewrite IHn, andb_true_r. unfold is_byte.
  pose proof (Z.mod_pos_bound z 256). lia.
Qed.

Lemma fits_iff n z : fits n z = true <-> 0 <= z < 2 ^ (8 * Z.of_nat n).
Proof. unfold fits; rewrite andb_true_iff, Z.leb_le, Z.ltb_lt; tauto. Qed.

Lemma fits_B z : 0 <= z < 256 -> fits 1 z = true.
Proof. intros; apply fits_iff; change (2 ^ (8 * Z.of_nat 1)) with 256; lia. Qed.

Lemma fits_H z : 0 <= z < 65536 -> fits 2 z = true.
Proof. intros; apply fits_iff; change (2 ^ (8 * Z.of_nat 2)) with 65536; lia. Qed.

Lemma fits_L z : 0 <= z < 4294967296 -> fits 4 z = true.
Proof. intros; apply fits_iff; change (2 ^ (8 * Z.of_nat 4)) with 4294967296; lia. Qed.

Lemma fits_H_false z : ~ (0 <= z < 65536) -> fits 2 z = false.
Proof.
  intros; apply not_true_is_false; rewrite fits_iff.
  change (2 ^ (8 * Z.of_nat 2)) with 65536; lia.
Qed.

Ltac pack_fields :=
  unfold pack;
  match goal with
  | |- context [parse_format ?s] =>
      let r := eval vm_compute in (parse_format s) in
      change (parse_format s) with r
  end;
  cbn [obind pack_all pack_one width];
  repeat first [rewrite fits_B by lia | rewrite fits_H by lia
               | rewrite fits_L by lia];
  cbn [obind].

(** ** The header builders *)

Lemma create_pcap_header_eq : create_pcap_header = Some pcap_header_bytes.
Proof. reflexivity. Qed.

Lemma create_ip_header_eq payload_length :
  0 <= 20 + 8 + 12 + payload_length < 65536 ->
  create_ip_header payload_length = Some (ip_header_bytes payload_length).
Proof. intros; unfold create_ip_header; pack_fields; reflexivity. Qed.

Lemma create_udp_header_eq payload_length :
  0 <= 8 + 12 + payload_length < 65536 ->
  create_udp_header payload_length = Some (udp_header_bytes payload_length).
Proof. intros; unfold create_udp_header; pack_fields; reflexivity. Qed.

Lemma create_rtp_header_eq seq_num timestamp ssrc :
  0 <= seq_num < 65536 -> 0 <= timestamp < 4294967296 ->
  0 <= ssrc < 4294967296 ->
  create_rtp_header seq_num timestamp ssrc =
  Some (rtp_header_bytes seq_num timestamp ssrc).
Proof. intros; unfold create_rtp_header; pack_fields; reflexivity. Qed.

Lemma create_rtp_header_out_of_range seq_num timestamp ssrc :
  ~ (0 <= seq_num < 65536) -> create_rtp_header seq_num timestamp ssrc = None.
Proof.
  intros; unfold create_rtp_header; pack_fields.
  rewrite fits_H_false by assumption; reflexivity.
Qed.

Lemma create_pcap_record_eq packet_data sec usec :
  0 <= sec < 4294967296 -> 0 <= usec < 4294967296 ->
  len packet_data < 4294967296 ->
  create_pcap_record packet_data sec usec =
  Some (record_header_bytes sec usec (len packet_data) ++ packet_data).
Proof.
  intros; unfold create_pcap_record, len in *; pack_fields.
  unfold record_header_bytes; rewrite <- !app_assoc; reflexivity.
Qed.

(** ** Ranges and exception-carrying maps *)

Lemma range_In n k : In k (range n) <-> 0 <= k < n.
Proof.
  unfold range; rewrite in_map_iff; split.
  - intros (x & <- & Hx); apply in_seq in Hx; lia.
  - intros H; exists (Z.to_nat k); split; [lia|]; apply in_seq; lia.
Qed.

Lemma range_length n : length (range n) = Z.to_nat n.
Proof. unfold range; now rewrite length_map, length_seq. Qed.

Lemma mapM_total {A B} (f : A -> option B) (g : A -> B) l :
  (forall x, In x l -> f x = Some (g x)) -> mapM f l = Some (map g l).
Proof.
  induction l as [|a l IH]; intros H; simpl; auto.
  rewrite (H a) by (now left); simpl.
  rewrite IH by (intros; apply H; now right); reflexivity.
Qed.

Lemma nth_map_range {A} (g : Z -> A) n k d :
  (k < Z.to_nat n)%nat -> nth k (map g (range n)) d = g (Z.of_nat k).
Proof.
  intros Hk; unfold range.
  rewrite map_map.
  rewrite (nth_indep _ d (g (Z.of_nat 0)))
    by (now rewrite length_map, length_seq).
  rewrite (map_nth (fun x => g (Z.of_nat x)) (seq 0 (Z.to_nat n)) 0%nat k).
  now rewrite seq_nth.
Qed.

(** ** The payload synthesizer *)

Lemma sample_eq i : sample i = Some (tone i).
Proof.
  unfold sample, tone.
  assert (H : In (i mod 18) (range 18))
    by (apply range_In, Z.mod_pos_bound; lia).
  set (k := i mod 18) in *; clearbody k.
  cbv in H.
  repeat (destruct H as [<- | H]; [vm_compute; reflexivity|]).
  contradiction.
Qed.

Lemma tone_bounds i : 25 <= tone i <= 217.
Proof.
  unfold tone.
  assert (H : In (i mod 18) (range 18))
    by (apply range_In, Z.mod_pos_bound; lia).
  set (k := i mod 18) in *; clearbody k.
  cbv in H.
  repeat (destruct H as [<- | H]; [vm_compute; split; discriminate|]).
  contradiction.
Qed.

Lemma a_law_sample_eq i : a_law_sample i = Some (tone i).
Proof.
  unfold a_law_sample; rewrite sample_eq; simpl.
  pose proof (tone_bounds i); f_equal; lia.
Qed.

Lemma tone_is_byte l : forallb is_byte (map tone l) = true.
Proof.
  apply forallb_forall; intros x Hx; apply in_map_iff in Hx.
  destruct Hx as (i & <- & _); pose proof (tone_bounds i).
  unfold is_byte; lia.
Qed.

(** Once the sample count is known, the synthesizer returns the tone over
    [range n]. *)
Lemma generate_g711a_audio_eq d n :
  samples_per_packet d = Some n ->
  generate_g711a_audio d = Some (map tone (range n)).
Proof.
  intros Hn; unfold generate_g711a_audio; rewrite Hn; simpl.
  rewrite (mapM_total a_law_sample tone) by (intros; apply a_law_sample_eq).
  simpl; unfold py_bytes; now rewrite tone_is_byte.
Qed.

Lemma generate_20ms : generate_g711a_audio (PyInt 20) = Some audio_20ms.
Proof. apply generate_g711a_audio_eq; vm_compute; reflexivity. Qed.

Lemma audio_20ms_length : length audio_20ms = 160%nat.
Proof. reflexivity. Qed.

(** ** What a written record declares *)

Lemma frame_of_length i : length (frame_of i) = 214%nat.
Proof.
  unfold frame_of, ip_header_bytes, udp_header_bytes, rtp_header_bytes.
  rewrite !length_app, !encode_length, audio_20ms_length; reflexivity.
Qed.

Lemma record_of_length now i : length (record_of now i) = 230%nat.
Proof.
  unfold record_of, record_header_bytes.
  rewrite !length_app, !encode_length, frame_of_length; reflexivity.
Qed.

Lemma concat_records_length now l :
  length (concat (map (record_of now) l)) = (230 * length l)%nat.
Proof.
  induction l as [|a l IH]; [reflexivity|].
  cbn [map concat]; rewrite length_app, record_of_length, IH; simpl; lia.
Qed.

Ltac expose_bytes :=
  cbv [record_of frame_of record_header_bytes ip_header_bytes
       udp_header_bytes rtp_header_bytes create_ethernet_header
       rec_ts_sec rec_ts_usec rec_incl_len rec_orig_len rec_frame
       ip_total_length udp_length rtp_seq rtp_timestamp rtp_payload
       slice encode];
  cbn [le_bytes rev app skipn firstn Nat.add].

Ltac field_roundtrip :=
  first
    [ apply (le_value_le_bytes 4);
      change (2 ^ (8 * Z.of_nat 4)) with 4294967296; lia
    | apply (be_value_encode 2);
      change (2 ^ (8 * Z.of_nat 2)) with 65536; lia
    | apply (be_value_encode 4);
      change (2 ^ (8 * Z.of_nat 4)) with 4294967296; lia ].

Lemma record_fields now i :
  0 <= now + i * 20000 / 1000000 < 4294967296 ->
  rec_ts_sec (record_of now i) = now + i * 20000 / 1000000 /\
  rec_ts_usec (record_of now i) = i * 20000 mod 1000000 /\
  rec_incl_len (record_of now i) = 214 /\
  rec_orig_len (record_of now i) = 214 /\
  rec_frame (record_of now i) = frame_of i.
Proof.
  intros Hsec.
  pose proof (Z.mod_pos_bound (i * 20000) 1000000 ltac:(lia)) as Hmod.
  repeat apply conj; expose_bytes; try reflexivity; field_roundtrip.
Qed.

Lemma frame_fields i :
  0 <= i < 64536 ->
  ip_total_length (frame_of i) = 200 /\
  udp_length (frame_of i) = 180 /\
  rtp_seq (frame_of i) = i + 1000 /\
  rtp_timestamp (frame_of i) = 160 * i /\
  rtp_payload (frame_of i) = audio_20ms.
Proof.
  intros Hi.
  repeat apply conj; expose_bytes; try reflexivity; field_roundtrip.
Qed.

(** The builders on their own: the declared length follows the argument, as
    long as it fits the 16-bit field. *)
Lemma create_ip_header_declares payload_length :
  0 <= 20 + 8 + 12 + payload_length < 65536 ->
  exists h, create_ip_header payload_length = Some h /\
    length h = 20%nat /\
    be_value (slice 2 2 h) = 20 + 8 + 12 + payload_length.
Proof.
  intros H; exists (ip_header_bytes payload_length).
  split; [now apply create_ip_header_eq|].
  unfold ip_header_bytes; split.
  - rewrite !length_app, !encode_length; reflexivity.
  - cbv [slice encode]; cbn [le_bytes rev app skipn firstn]; field_roundtrip.
Qed.

Lemma create_udp_header_declares payload_length :
  0 <= 8 + 12 + payload_length < 65536 ->
  exists h, create_udp_header payload_length = Some h /\
    length h = 8%nat /\
    be_value (slice 4 2 h) = 8 + 12 + payload_length.
Proof.
  intros H; exists (udp_header_bytes payload_length).
  split; [now apply create_udp_header_eq|].
  unfold udp_header_bytes; split.
  - rewrite !length_app, !encode_length; reflexivity.
  - cbv [slice encode]; cbn [le_bytes rev app skipn firstn]; field_roundtrip.
Qed.

Lemma In_records now r :
  In r (map (record_of now) (range 50)) ->
  exists i, r = record_of now i /\ 0 <= i < 50.
Proof.
  intros H; apply in_map_iff in H; destruct H as (i & <- & Hi).
  apply range_In in Hi; eauto.
Qed.

(** Past its seconds field, a record does not depend on the clock. *)
Lemma record_of_clock_free now1 now2 i j :
  (4 <= j)%nat ->
  nth_error (record_of now1 i) j = nth_error (record_of now2 i) j.
Proof.
  intros Hj; unfold record_of, record_header_bytes.
  rewrite <- !app_assoc.
  rewrite (nth_error_app2 (encode LittleEndian 4 (now1 + _)))
    by (rewrite encode_length; exact Hj).
  rewrite (nth_error_app2 (encode LittleEndian 4 (now2 + _)))
    by (rewrite encode_length; exact Hj).
  rewrite !encode_length; reflexivity.
Qed.

(** ** The driver *)

Lemma packet_step_eq now i f :
  0 <= now -> now + i * 20000 / 1000000 < 4294967296 -> 0 <= i < 64536 ->
  packet_step now i (160 * i) f =
  Some (160 * (i + 1), f ++ [record_of now i]).
Proof.
  intros Hnow Hsec Hi.
  unfold packet_step, bind, call, write, ret.
  rewrite generate_20ms.
  change (len audio_20ms) with 160.
  rewrite create_ip_header_eq, create_udp_header_eq by lia.
  rewrite create_rtp_header_eq by (unfold default_ssrc; lia).
  fold (frame_of i).
  assert (Hdiv : 0 <= i * 20000 / 1000000) by (apply Z.div_pos; lia).
  pose proof (Z.mod_pos_bound (i * 20000) 1000000 ltac:(lia)) as Hmod.
  rewrite create_pcap_record_eq;
    unfold len; rewrite ?frame_of_length; try lia.
  unfold record_of; change (Z.of_nat 214) with 214.
  do 2 f_equal; lia.
Qed.



(** The rest of the development is about a run whose clock value does fit. *)
Section Run.

Variable now : Z.
Hypothesis clock_fits : 0 <= now < 4294967296.

Lemma for_each_records k : forall a f,
  (a + k <= 50)%nat ->
  for_each (map Z.of_nat (seq a k)) (packet_step now) (160 * Z.of_nat a) f =
  Some (160 * Z.of_nat (a + k),
        f ++ map (record_of now) (map Z.of_nat (seq a k))).
Proof.
  induction k as [|k IH]; intros a f Hak.
  - simpl; unfold ret; rewrite app_nil_r, Nat.add_0_r; reflexivity.
  - cbn [seq map for_each]; unfold bind at 1.
    assert (Hz : Z.of_nat a * 20000 / 1000000 = 0)
      by (apply Z.div_small; lia).
    rewrite packet_step_eq by lia.
    replace (Z.of_nat a + 1) with (Z.of_nat (S a)) by lia.
    rewrite IH by lia.
    rewrite <- app_assoc; do 3 f_equal; lia.
Qed.

(** The run writes the capture header and then the 50 records, in order. *)
Lemma run_eq :
  run now = Some (pcap_header_bytes :: map (record_of now) (range 50)).
Proof.
  unfold run, main, bind, call, write, ret.
  rewrite create_pcap_header_eq.
  change 0 with (160 * Z.of_nat 0) at 1.
  unfold range; change (Z.to_nat 50) with 50%nat.
  rewrite for_each_records by (simpl; lia).
  reflexivity.
Qed.

Lemma run_records :
  exists f, run now = Some f /\ hd [] f = pcap_header_bytes /\
            records f = map (record_of now) (range 50).
Proof. eexists; split; [apply run_eq|split; reflexivity]. Qed.

(** Everything record [i] of the run declares. *)
Lemma record_of_declares i :
  0 <= i < 50 ->
  rec_ts_sec (record_of now i) = now /\
  rec_ts_usec (record_of now i) = i * 20000 /\
  rec_incl_len (record_of now i) = 214 /\
  rec_orig_len (record_of now i) = 214 /\
  rec_frame (record_of now i) = frame_of i.
Proof.
  intros Hi.
  assert (Hz : i * 20000 / 1000000 = 0) by (apply Z.div_small; lia).
  assert (Hm : i * 20000 mod 1000000 = i * 20000) by (apply Z.mod_small; lia).
  destruct (record_fields now i) as (H1 & H2 & H3 & H4 & H5); [lia|].
  rewrite H1, H2, Hz, Hm, Z.add_0_r; auto.
Qed.

Lemma frame_lists :
  map (fun r => rtp_seq (rec_frame r)) (map (record_of now) (range 50)) =
    map (fun i => 1000 + 1 * i) (range 50) /\
  map (fun r => rtp_timestamp (rec_frame r)) (map (record_of now) (range 50)) =
    map (fun i => 0 + 160 * i) (range 50).
Proof.
  rewrite !map_map; split; apply map_ext_in; intros i Hi;
    apply range_In in Hi;
    destruct (record_of_declares i Hi) as (_ & _ & _ & _ & ->);
    destruct (frame_fields i) as (_ & _ & Hs & Ht & _); lia.
Qed.

Lemma capture_span_of_run :
  capture_span_usec (pcap_header_bytes :: map (record_of now) (range 50))
  = 980000.
Proof.
  unfold capture_span_usec, rec_time_usec, records; cbn [tl].
  change (last (map (record_of now) (range 50)) []) with (record_of now 49).
  change (hd [] (map (record_of now) (range 50))) with (record_of now 0).
  destruct (record_of_declares 49) as (-> & -> & _); [lia|].
  destruct (record_of_declares 0) as (-> & -> & _); [lia|].
  lia.
Qed.

End Run.

(** ** Arithmetic sequences *)

Lemma arithmetic_map a d n :
  0 < n -> arithmetic a d (map (fun i => a + d * i) (range n)).
Proof.
  intros Hn; split.
  - rewrite nth_map_range by lia; simpl; lia.
  - intros k Hk; rewrite length_map, range_length in Hk.
    rewrite !nth_map_range by lia; lia.
Qed.

Lemma strictly_increasing_map a d n :
  0 < d -> strictly_increasing (map (fun i => a + d * i) (range n)).
Proof.
  intros Hd j k Hjk; rewrite length_map, range_length in Hjk.
  rewrite !nth_map_range by lia; nia.
Qed.

(** ** Reading a run's file back *)

Lemma read_records_step fuel r rest :
  length r = 230%nat -> rec_incl_len r = 214 ->
  read_records (S fuel) (r ++ rest) =
  option_map (cons r) (read_records fuel rest).
Proof.
  intros Hlen Hincl.
  destruct (r ++ rest) as [|x t] eqn:E.
  - apply (f_equal (@length Z)) in E; rewrite length_app, Hlen in E.
    discriminate.
  - cbn [read_records]; rewrite <- E.
    assert (Hs : slice 8 4 (r ++ rest) = slice 8 4 r).
    { unfold slice; rewrite skipn_app, firstn_app, length_skipn, Hlen.
      change (4 - (230 - 8))%nat with 0%nat; cbn [firstn]; apply app_nil_r. }
    rewrite Hs.
    unfold rec_incl_len in Hincl; rewrite Hincl.
    change (16 + Z.to_nat 214)%nat with 230%nat.
    replace (length (r ++ rest) <? 230)%nat with false
      by (symmetry; apply Nat.ltb_ge; rewrite length_app; lia).
    rewrite <- Hlen.
    rewrite firstn_app, Nat.sub_diag, firstn_all; cbn [firstn].
    rewrite skipn_app, Nat.sub_diag, skipn_all; cbn [skipn app].
    now rewrite app_nil_r.
Qed.

Lemma read_records_of now l : forall fuel,
  (length l <= fuel)%nat ->
  read_records fuel (concat (map (record_of now) l)) =
  Some (map (record_of now) l).
Proof.
  induction l as [|i l IH]; intros fuel Hfuel.
  - destruct fuel; reflexivity.
  - destruct fuel as [|fuel]; [simpl in Hfuel; lia|].
    cbn [map concat].
    rewrite read_records_step;
      [ | apply record_of_length | expose_bytes; reflexivity ].
    rewrite IH by (simpl in Hfuel; lia); reflexivity.
Qed.

Lemma read_pcap_of_run now :
  read_pcap (contents (pcap_header_bytes :: map (record_of now) (range 50)))
  = Some (pcap_header_bytes, map (record_of now) (range 50)).
Proof.
  unfold read_pcap, contents; cbn [concat].
  set (body := concat (map (record_of now) (range 50))).
  change (skipn 24 (pcap_header_bytes ++ body)) with body.
  change (firstn 24 (pcap_header_bytes ++ body)) with pcap_header_bytes.
  assert (Hlen : length body = (230 * 50)%nat)
    by (subst body; now rewrite concat_records_length, range_length).
  rewrite length_app, Hlen.
  change (length pcap_header_bytes) with 24%nat.
  replace (24 + 230 * 50 <? 24)%nat with false
    by (symmetry; apply Nat.ltb_ge; lia).
  subst body; rewrite read_records_of; [reflexivity|].
  rewrite range_length; change (Z.to_nat 50) with 50%nat; lia.
Qed.

(** Offsets in the concatenation of equally long chunks. *)
Lemma nth_error_concat_map {A B} (g : A -> list B) n l : forall k,
  (0 < n)%nat -> (forall x, length (g x) = n) ->
  nth_error (concat (map g l)) k =
  match nth_error l (k / n) with
  | Some x => nth_error (g x) (k mod n)
  | None => None
  end.
Proof.
  induction l as [|a l IH]; intros k Hn Hg.
  - simpl; destruct (k / n)%nat, k; reflexivity.
  - cbn [map concat].
    destruct (Nat.lt_ge_cases k n) as [Hk | Hk].
    + rewrite nth_error_app1 by (now rewrite Hg).
      rewrite Nat.div_small, Nat.mod_small by assumption; reflexivity.
    + rewrite nth_error_app2 by (now rewrite Hg).
      rewrite Hg, IH by assumption.
      replace (k / n)%nat with (S ((k - n) / n)).
      2:{ replace k with ((k - n) + 1 * n)%nat at 2 by lia.
          rewrite Nat.div_add by lia; lia. }
      replace (k mod n)%nat with ((k - n) mod n)%nat.
      2:{ replace k with ((k - n) + 1 * n)%nat at 2 by lia.
          now rewrite Nat.Div0.mod_add. }
      reflexivity.
Qed.

(** ** Properties of a run *)

(** C1: in every record a run writes, the IP header's total-length field is
    20 + 8 + 12 + len(payload) and the UDP header's length field is
    8 + 12 + len(payload); the payload has 160 bytes, so the first record's
    total-length field is 200. *)
Theorem declared_lengths_match_payload now :
  0 <= now < 4294967296 ->
  exists f, run now = Some f /\
    (forall r, In r (records f) ->
       ip_total_length (rec_frame r) = 20 + 8 + 12 + len (rtp_payload (rec_frame r)) /\
       udp_length (rec_frame r) = 8 + 12 + len (rtp_payload (rec_frame r))) /\
    len (rtp_payload (rec_frame (hd [] (records f)))) = 160 /\
    ip_total_length (rec_frame (hd [] (records f))) = 200.
Proof.
  intros Hnow.
  destruct (run_records now Hnow) as (f & Hrun & _ & Hrec).
  exists f; split; [exact Hrun|]; rewrite Hrec.
  split.
  - intros r Hr; apply In_records in Hr; destruct Hr as (i & -> & Hi).
    destruct (record_of_declares now Hnow i Hi) as (_ & _ & _ & _ & ->).
    destruct (frame_fields i) as (-> & -> & _ & _ & ->); [lia|].
    split; reflexivity.
  - change (hd [] (map (record_of now) (range 50))) with (record_of now 0).
    destruct (record_of_declares now Hnow 0) as (_ & _ & _ & _ & ->); [lia|].
    destruct (frame_fields 0) as (-> & _ & _ & _ & ->); [lia|].
    split; reflexivity.
Qed.

Lemma declared_lengths_match_payload_witness :
  exists f, run 1700000000 = Some f /\
    (forall r, In r (records f) ->
       ip_total_length (rec_frame r) = 20 + 8 + 12 + len (rtp_payload (rec_frame r)) /\
       udp_length (rec_frame r) = 8 + 12 + len (rtp_payload (rec_frame r))) /\
    len (rtp_payload (rec_frame (hd [] (records f)))) = 160 /\
    ip_total_length (rec_frame (hd [] (records f))) = 200.
Proof. apply (declared_lengths_match_payload 1700000000); lia. Defined.

(** C2: a run writes the capture header and then exactly 50 records; each
    record is a 16-byte record header followed by 214 = 14 + 20 + 8 + 12 + 160
    bytes of frame, and its captured-length and original-length fields are
    equal to each other and to the byte length of that frame. *)
Theorem fifty_records_of_214_bytes now :
  0 <= now < 4294967296 ->
  exists f, run now = Some f /\
    create_pcap_header = Some (hd [] f) /\
    length (records f) = 50%nat /\
    (forall r, In r (records f) ->
       length r = (16 + 214)%nat /\
       length (rec_frame r) = (14 + 20 + 8 + 12 + 160)%nat /\
       rec_incl_len r = rec_orig_len r /\
       rec_incl_len r = len (rec_frame r)) /\
    length (contents f) = (24 + 50 * (16 + 214))%nat /\
    read_pcap (contents f) = Some (hd [] f, records f).
Proof.
  intros Hnow.
  exists (pcap_header_bytes :: map (record_of now) (range 50)).
  split; [apply run_eq, Hnow|].
  cbn [hd records tl].
  split; [apply create_pcap_header_eq|].
  split; [now rewrite length_map, range_length|].
  split; [|split; [|apply read_pcap_of_run]].
  - intros r Hr.
    apply In_records in Hr; destruct Hr as (i & -> & Hi).
    destruct (record_of_declares now Hnow i Hi) as (_ & _ & -> & -> & ->).
    unfold len; rewrite record_of_length, frame_of_length; auto.
  - unfold contents; cbn [concat].
    rewrite length_app, concat_records_length, range_length; reflexivity.
Qed.

Lemma fifty_records_of_214_bytes_witness :
  exists f, run 1700000000 = Some f /\
    create_pcap_header = Some (hd [] f) /\
    length (records f) = 50%nat /\
    (forall r, In r (records f) ->
       length r = (16 + 214)%nat /\
       length (rec_frame r) = (14 + 20 + 8 + 12 + 160)%nat /\
       rec_incl_len r = rec_orig_len r /\
       rec_incl_len r = len (rec_frame r)) /\
    length (contents f) = (24 + 50 * (16 + 214))%nat /\
    read_pcap (contents f) = Some (hd [] f, records f).
Proof. apply (fifty_records_of_214_bytes 1700000000); lia. Defined.

(** C3: the RTP sequence numbers of the 50 records, in write order, are
    1000, 1001, ..., 1049: a strictly increasing arithmetic sequence with
    common difference 1 that starts at 1000. *)
Theorem sequence_numbers_arithmetic now :
  0 <= now < 4294967296 ->
  exists f, run now = Some f /\
    length (seq_numbers f) = 50%nat /\
    arithmetic 1000 1 (seq_numbers f) /\
    strictly_increasing (seq_numbers f).
Proof.
  intros Hnow.
  destruct (run_records now Hnow) as (f & Hrun & _ & Hrec).
  exists f; split; [exact Hrun|].
  unfold seq_numbers; rewrite Hrec.
  destruct (frame_lists now Hnow) as [-> _].
  split; [reflexivity|].
  split; [apply arithmetic_map|apply strictly_increasing_map]; lia.
Qed.

Lemma sequence_numbers_arithmetic_witness :
  exists f, run 1700000000 = Some f /\
    length (seq_numbers f) = 50%nat /\
    arithmetic 1000 1 (seq_numbers f) /\
    strictly_increasing (seq_numbers f).
Proof. apply (sequence_numbers_arithmetic 1700000000); lia. Defined.

(** C4: the RTP timestamps of the 50 records, in write order, are
    0, 160, ..., 7840: a strictly increasing arithmetic sequence with common
    difference 160 that starts at 0. *)
Theorem media_timestamps_arithmetic now :
  0 <= now < 4294967296 ->
  exists f, run now = Some f /\
    length (media_timestamps f) = 50%nat /\
    arithmetic 0 160 (media_timestamps f) /\
    strictly_increasing (media_timestamps f).
Proof.
  intros Hnow.
  destruct (run_records now Hnow) as (f & Hrun & _ & Hrec).
  exists f; split; [exact Hrun|].
  unfold media_timestamps; rewrite Hrec.
  destruct (frame_lists now Hnow) as [_ ->].
  split; [reflexivity|].
  split; [apply arithmetic_map|apply strictly_increasing_map]; lia.
Qed.

Lemma media_timestamps_arithmetic_witness :
  exists f, run 1700000000 = Some f /\
    length (media_timestamps f) = 50%nat /\
    arithmetic 0 160 (media_timestamps f) /\
    strictly_increasing (media_timestamps f).
Proof. apply (media_timestamps_arithmetic 1700000000); lia. Defined.

(** C5: two runs differ at most in the bytes of the record headers'
    timestamp fields: the files have the same length and agree at every
    offset outside those fields. *)
Theorem runs_agree_outside_timestamps now1 now2 :
  0 <= now1 < 4294967296 -> 0 <= now2 < 4294967296 ->
  exists f1 f2, run now1 = Some f1 /\ run now2 = Some f2 /\
    length (contents f1) = length (contents f2) /\
    forall k, ~ in_timestamp_field k ->
      nth_error (contents f1) k = nth_error (contents f2) k.
Proof.
  intros H1 H2.
  exists (pcap_header_bytes :: map (record_of now1) (range 50)),
         (pcap_header_bytes :: map (record_of now2) (range 50)).
  split; [apply run_eq, H1|]. split; [apply run_eq, H2|].
  unfold contents; cbn [concat].
  split; [now rewrite !length_app, !concat_records_length|].
  intros k Hk.
  destruct (Nat.lt_ge_cases k 24) as [Hlt | Hge].
  - rewrite !nth_error_app1 by exact Hlt; reflexivity.
  - rewrite !nth_error_app2 by exact Hge.
    change (length pcap_header_bytes) with 24%nat.
    rewrite !(nth_error_concat_map (record_of _) 230)
      by (try lia; intros; apply record_of_length).
    destruct (nth_error (range 50) ((k - 24) / 230)); [|reflexivity].
    apply record_of_clock_free.
    unfold in_timestamp_field in Hk; lia.
Qed.

Lemma runs_agree_outside_timestamps_witness :
  exists f1 f2, run 1700000000 = Some f1 /\ run 1800000000 = Some f2 /\
    length (contents f1) = length (contents f2) /\
    forall k, ~ in_timestamp_field k ->
      nth_error (contents f1) k = nth_error (contents f2) k.
Proof.
  apply (runs_agree_outside_timestamps 1700000000 1800000000); lia.
Defined.

(** ** Capture time *)

(** C6, as stated, fails: from the first record's capture timestamp to the
    last one's there are 980 ms, not 50 x 20 ms. *)
Lemma capture_span_is_not_1000ms :
  exists f, run 1700000000 = Some f /\
    capture_span_usec f = 980000 /\
    capture_span_usec f <> 50 * 20 * 1000.
Proof.
  eexists; split; [apply run_eq; lia|].
  rewrite capture_span_of_run by lia; split; [reflexivity|discriminate].
Qed.

(** C6, amended: the last record's capture timestamp is exactly
    49 x 20 ms = 980 ms after the first record's. *)
Theorem capture_span_49_intervals now :
  0 <= now < 4294967296 ->
  exists f, run now = Some f /\ capture_span_usec f = 49 * 20 * 1000.
Proof.
  intros Hnow; eexists; split; [apply run_eq, Hnow|].
  now apply capture_span_of_run.
Qed.

Lemma capture_span_49_intervals_witness :
  exists f, run 1700000000 = Some f /\ capture_span_usec f = 49 * 20 * 1000.
Proof. apply (capture_span_49_intervals 1700000000); lia. Defined.

(** C10: in record [i] of a run the microseconds field is
    (i * 20000) mod 1000000, within [0, 999999], and the seconds field is the
    run's clock value: the offset i * 20000 is at most 980000, so nothing is
    carried into the seconds. *)
Theorem record_timestamps_no_carry now :
  0 <= now < 4294967296 ->
  exists f, run now = Some f /\ length (records f) = 50%nat /\
    forall i, 0 <= i < 50 ->
      let r := nth (Z.to_nat i) (records f) [] in
      0 <= rec_ts_usec r <= 999999 /\
      rec_ts_usec r = (i * 20000) mod 1000000 /\
      rec_ts_sec r = now /\
      i * 20000 <= 49 * 20000 /\ 49 * 20000 = 980000 /\
      i * 20000 / 1000000 = 0.
Proof.
  intros Hnow.
  destruct (run_records now Hnow) as (f & Hrun & _ & Hrec).
  exists f; split; [exact Hrun|]; rewrite Hrec.
  split; [reflexivity|].
  intros i Hi r; subst r.
  rewrite nth_map_range by lia; rewrite Z2Nat.id by lia.
  destruct (record_of_declares now Hnow i Hi) as (-> & -> & _).
  rewrite Z.mod_small, Z.div_small by lia; lia.
Qed.

Lemma record_timestamps_no_carry_witness :
  exists f, run 1700000000 = Some f /\ length (records f) = 50%nat /\
    forall i, 0 <= i < 50 ->
      let r := nth (Z.to_nat i) (records f) [] in
      0 <= rec_ts_usec r <= 999999 /\
      rec_ts_usec r = (i * 20000) mod 1000000 /\
      rec_ts_sec r = 1700000000 /\
      i * 20000 <= 49 * 20000 /\ 49 * 20000 = 980000 /\
      i * 20000 / 1000000 = 0.
Proof. apply (record_timestamps_no_carry 1700000000); lia. Defined.

(** ** Payloads *)

(** C9: the synthesizer's result depends on the duration alone, the driver
    passes 20 in every iteration, and each of the 50 records of a run
    carries that one 160-byte payload. *)
Theorem all_payloads_identical now :
  0 <= now < 4294967296 ->
  exists f audio, run now = Some f /\
    generate_g711a_audio (PyInt 20) = Some audio /\
    length audio = 160%nat /\
    length (records f) = 50%nat /\
    payloads f = repeat audio 50 /\
    (forall r, In r (records f) -> rtp_payload (rec_frame r) = audio) /\
    (forall r1 r2, In r1 (records f) -> In r2 (records f) ->
       rtp_payload (rec_frame r1) = rtp_payload (rec_frame r2)).
Proof.
  intros Hnow.
  destruct (run_records now Hnow) as (f & Hrun & _ & Hrec).
  exists f, audio_20ms; split; [exact Hrun|].
  split; [apply generate_20ms|]. split; [reflexivity|].
  split; [now rewrite Hrec, length_map, range_length|].
  assert (Hall : forall r, In r (records f) ->
                           rtp_payload (rec_frame r) = audio_20ms).
  { rewrite Hrec; intros r Hr.
    apply In_records in Hr; destruct Hr as (i & -> & Hi).
    destruct (record_of_declares now Hnow i Hi) as (_ & _ & _ & _ & ->).
    destruct (frame_fields i) as (_ & _ & _ & _ & ->); [lia|reflexivity]. }
  split; [|split; [exact Hall|]].
  - unfold payloads.
    rewrite (map_ext_in _ (fun _ => audio_20ms) (records f) Hall), Hrec.
    rewrite map_map.
    change (repeat audio_20ms 50)
      with (map (fun _ : Z => audio_20ms) (range 50)); reflexivity.
  - intros r1 r2 Hr1 Hr2; now rewrite (Hall r1), (Hall r2).
Qed.

Lemma all_payloads_identical_witness :
  exists f audio, run 1700000000 = Some f /\
    generate_g711a_audio (PyInt 20) = Some audio /\
    length audio = 160%nat /\
    length (records f) = 50%nat /\
    payloads f = repeat audio 50 /\
    (forall r, In r (records f) -> rtp_payload (rec_frame r) = audio) /\
    (forall r1 r2, In r1 (records f) -> In r2 (records f) ->
       rtp_payload (rec_frame r1) = rtp_payload (rec_frame r2)).
Proof. apply (all_payloads_identical 1700000000); lia. Defined.

(** ** The sample count of an integer duration

    [8000 * d / 1000] is a true division of two ints.  Below 2^50 ms the
    quotient 8 * d has at most 53 significant bits, so the division and the
    truncation that follows are exact. *)

Example lit_0_8_nearest :
  Float64.div (Float64.of_int 8) (Float64.of_int 10) = Float64.lit_0_8.
Proof. vm_compute; reflexivity. Qed.

Example lit_0_1_nearest :
  Float64.div (Float64.of_int 1) (Float64.of_int 10) = lit_0_1.
Proof. vm_compute; reflexivity. Qed.

Lemma digits2_pos_size p : digits2_pos p = Pos.size p.
Proof. induction p; simpl; congruence. Qed.

Lemma digits2_pos_log2 p : Zpos (digits2_pos p) = Z.log2 (Zpos p) + 1.
Proof.
  rewrite digits2_pos_size.
  destruct p; simpl; rewrite ?Pos.add_1_r; reflexivity.
Qed.

Lemma digits2_pos_unique p k :
  0 < k -> 2 ^ (k - 1) <= Zpos p < 2 ^ k -> Zpos (digits2_pos p) = k.
Proof.
  intros Hk H; rewrite digits2_pos_log2.
  rewrite (Z.log2_unique (Zpos p) (k - 1)); [lia|lia|].
  replace (Z.succ (k - 1)) with k by lia; exact H.
Qed.

Lemma digits2_pos_bounds p :
  2 ^ (Zpos (digits2_pos p) - 1) <= Zpos p < 2 ^ Zpos (digits2_pos p).
Proof.
  rewrite digits2_pos_log2.
  replace (Z.log2 (Zpos p) + 1 - 1) with (Z.log2 (Zpos p)) by lia.
  pose proof (Z.log2_spec (Zpos p) ltac:(lia)); unfold Z.succ in *; lia.
Qed.

Lemma round_exact_53 p e :
  Zpos (digits2_pos p) = 53 -> -1074 <= e <= 971 ->
  binary_round_aux 53 1024 false (Zpos p) e loc_Exact = S754_finite false p e.
Proof.
  intros Hd He.
  unfold binary_round_aux, shr_fexp, fexp, emin, Zdigits2.
  rewrite Hd.
  replace (Z.max (53 + e - 53) (3 - 1024 - 53) - e) with 0 by lia.
  cbn [shr shr_record_of_loc shr_m loc_of_shr_record round_nearest_even].
  rewrite Hd.
  replace (Z.max (53 + e - 53) (3 - 1024 - 53) - e) with 0 by lia.
  cbn [shr shr_record_of_loc shr_m].
  replace (e <=? 1024 - 53) with true by lia.
  reflexivity.
Qed.

Lemma round_exact_54 p e :
  Zpos (digits2_pos p) = 53 -> -1075 <= e <= 970 ->
  binary_round_aux 53 1024 false (Zpos p~0) e loc_Exact =
  S754_finite false p (e + 1).
Proof.
  intros Hd He.
  unfold binary_round_aux, shr_fexp, fexp, emin, Zdigits2.
  cbn [digits2_pos]. rewrite Pos2Z.inj_succ, Hd.
  replace (Z.max (Z.succ 53 + e - 53) (3 - 1024 - 53) - e) with 1 by lia.
  cbn [shr iter_pos shr_1 shr_record_of_loc shr_m loc_of_shr_record
       round_nearest_even orb].
  rewrite Hd.
  replace (Z.max (53 + (e + 1) - 53) (3 - 1024 - 53) - (e + 1)) with 0 by lia.
  cbn [shr shr_record_of_loc shr_m].
  replace (e + 1 <=? 1024 - 53) with true by lia.
  reflexivity.
Qed.

Lemma div_core_exact n :
  0 < n < 2 ^ 53 ->
  let s := 63 - Zdigits2 (1000 * n) in
  0 <= s <= 53 /\
  SFdiv_core_binary 53 1024 (1000 * n) 0 1000 0 = (n * 2 ^ s, - s, loc_Exact).
Proof.
  intros Hn s.
  assert (Hpos : 0 < 1000 * n) by lia.
  destruct (1000 * n) as [|p|p] eqn:Hp; try lia.
  pose proof (digits2_pos_bounds p) as Hb.
  assert (Hs : 0 <= s <= 53).
  { subst s; cbn [Zdigits2].
    set (D := Zpos (digits2_pos p)) in *.
    assert (D <= 63).
    { destruct (Z_le_gt_dec D 63); auto.
      assert (2 ^ 63 <= 2 ^ (D - 1)) by (apply Z.pow_le_mono_r; lia).
      change (2 ^ 53) with 9007199254740992 in Hn.
      change (2 ^ 63) with 9223372036854775808 in *. lia. }
    assert (10 <= D).
    { destruct (Z_le_gt_dec 10 D); auto.
      assert (2 ^ D <= 2 ^ 9) by (apply Z.pow_le_mono_r; lia).
      change (2 ^ 9) with 512 in *. lia. }
    lia. }
  split; [exact Hs|].
  unfold SFdiv_core_binary, fexp, emin.
  change (Zdigits2 1000) with 10.
  fold s.
  replace (Z.min (Z.max (Zdigits2 (Zpos p) + 0 - (10 + 0) - 53) (3 - 1024 - 53)) (0 - 0))
    with (- s) by (subst s; lia).
  replace (0 - 0 - - s) with s by lia.
  assert (Hm : match s with
               | 0 => Zpos p
               | Zpos _ => Z.shiftl (Zpos p) s
               | Zneg _ => 0
               end = 1000 * (n * 2 ^ s)).
  { destruct s eqn:Es; [change (2 ^ 0) with 1; lia| |lia].
    rewrite Z.shiftl_mul_pow2 by lia; rewrite <- Hp; ring. }
  rewrite Hm.
  assert (Hq : Z.div_eucl (1000 * (n * 2 ^ s)) 1000 = (n * 2 ^ s, 0)).
  { pose proof (Z.div_eucl_eq (1000 * (n * 2 ^ s)) 1000 ltac:(lia)) as E.
    pose proof (Z.mod_pos_bound (1000 * (n * 2 ^ s)) 1000 ltac:(lia)) as B.
    unfold Z.modulo in B.
    destruct (Z.div_eucl (1000 * (n * 2 ^ s)) 1000) as [q r].
    f_equal; lia. }
  rewrite Hq. reflexivity.
Qed.

Lemma to_int_scaled p e n :
  e <= 0 -> Zpos p = n * 2 ^ (- e) ->
  Float64.to_int (S754_finite false p e) = Some n.
Proof.
  intros He Hp; unfold Float64.to_int; rewrite Hp; f_equal.
  destruct (Z.leb_spec 0 e).
  - replace e with 0 by lia; change (2 ^ (- 0)) with 1; change (2 ^ 0) with 1; lia.
  - apply Z.div_mul.
    assert (0 < 2 ^ (- e)) by (apply Z.pow_pos_nonneg; lia); lia.
Qed.

Lemma int_truediv_exact n :
  0 < n < 2 ^ 53 ->
  exists x, Float64.int_truediv (1000 * n) 1000 = Some x /\
            Float64.to_int x = Some n.
Proof.
  intros Hn.
  destruct (div_core_exact n Hn) as [Hs Hcore].
  set (s := 63 - Zdigits2 (1000 * n)) in *.
  assert (Hq : 2 ^ 62 <= 1000 * (n * 2 ^ s) < 2 ^ 63).
  { assert (Hpos : 0 < 1000 * n) by lia.
    destruct (1000 * n) as [|p|p] eqn:Hp; try lia.
    pose proof (digits2_pos_bounds p) as Hb.
    cbn [Zdigits2] in s.
    set (D := Zpos (digits2_pos p)) in *.
    assert (H2s : 0 < 2 ^ s) by (apply Z.pow_pos_nonneg; lia).
    replace (1000 * (n * 2 ^ s)) with (Zpos p * 2 ^ s) by (rewrite <- Hp; ring).
    assert (H1 : 2 ^ (D - 1) * 2 ^ s <= Zpos p * 2 ^ s < 2 ^ D * 2 ^ s)
      by (split; [apply Z.mul_le_mono_nonneg_r|apply Z.mul_lt_mono_pos_r]; lia).
    rewrite <- !Z.pow_add_r in H1 by (subst s D; lia).
    replace (D - 1 + s) with 62 in H1 by (subst s; lia).
    replace (D + s) with 63 in H1 by (subst s; lia).
    exact H1. }
  change (2 ^ 62) with 4611686018427387904 in Hq.
  change (2 ^ 63) with 9223372036854775808 in Hq.
  unfold Float64.int_truediv.
  change (1000 =? 0) with false; cbv iota.
  assert (Hraw : exists p, 1000 * n = Zpos p)
    by (destruct (1000 * n) eqn:E; try lia; eauto).
  destruct Hraw as [p Hp].
  rewrite Hp in *.
  cbn [Float64.raw SFdiv].
  unfold Float64.prec, Float64.emax.
  rewrite Hcore; cbn [xorb].
  destruct (Z_lt_ge_dec (n * 2 ^ s) (2 ^ 53)) as [Hlt | Hge].
  - (* the quotient has 53 digits *)
    change (2 ^ 53) with 9007199254740992 in Hlt.
    destruct (n * 2 ^ s) as [|pq|pq] eqn:Epq; try lia.
    rewrite round_exact_53;
      [ | apply digits2_pos_unique; [lia|];
          change (2 ^ (53 - 1)) with 4503599627370496;
          change (2 ^ 53) with 9007199254740992; lia
        | lia ].
    eexists; split; [reflexivity|].
    apply to_int_scaled; [lia|].
    rewrite Z.opp_involutive; congruence.
  - (* it has 54, and its last bit is zero *)
    assert (Hs1 : 1 <= s).
    { destruct (Z.eq_dec s 0) as [E0|]; [|lia].
      rewrite E0 in Hge; change (2 ^ 0) with 1 in Hge; lia. }
    assert (Hhalf : n * 2 ^ s = 2 * (n * 2 ^ (s - 1))).
    { replace s with (1 + (s - 1)) at 1 by lia.
      rewrite Z.pow_add_r by lia; change (2 ^ 1) with 2; ring. }
    rewrite Hhalf in *.
    change (2 ^ 53) with 9007199254740992 in Hge.
    destruct (n * 2 ^ (s - 1)) as [|pq|pq] eqn:Epq; try lia.
    change (2 * Zpos pq) with (Zpos pq~0).
    rewrite round_exact_54;
      [ | apply digits2_pos_unique; [lia|];
          change (2 ^ (53 - 1)) with 4503599627370496;
          change (2 ^ 53) with 9007199254740992; lia
        | lia ].
    eexists; split; [reflexivity|].
    apply to_int_scaled; [lia|].
    replace (- (- s + 1)) with (s - 1) by lia; congruence.
Qed.

Lemma samples_per_packet_int d :
  0 < d < 2 ^ 50 -> samples_per_packet (PyInt d) = Some (8 * d).
Proof.
  intros Hd; unfold samples_per_packet.
  replace (8000 * d) with (1000 * (8 * d)) by ring.
  destruct (int_truediv_exact (8 * d)) as (x & -> & Hx).
  - change (2 ^ 53) with (8 * 2 ^ 50); lia.
  - exact Hx.
Qed.

(** Beyond that the quotient is rounded, and past the binary64 range the
    division raises OverflowError. *)
Example samples_per_packet_rounds :
  samples_per_packet (PyInt (2 ^ 53 + 1)) = Some (2 ^ 56) /\
  8 * (2 ^ 53 + 1) = 2 ^ 56 + 8.
Proof. split; vm_compute; reflexivity. Qed.

Example samples_per_packet_overflows :
  samples_per_packet (PyInt (2 ^ 1021)) = None.
Proof. vm_compute; reflexivity. Qed.

(** C7, as stated, fails: 0.1 ms is a positive duration, 8000 * 0.1 / 1000
    truncates to 0, and the synthesizer returns the empty byte string. *)
Lemma short_duration_gives_no_samples :
  positive_duration (PyFloat lit_0_1) = true /\
  samples_per_packet (PyFloat lit_0_1) = Some 0 /\
  generate_g711a_audio (PyFloat lit_0_1) = Some [].
Proof. repeat apply conj; vm_compute; reflexivity. Qed.

(** C7, amended: for every duration d, int or float, whose sample count
    int(8000 * d / 1000) is at least 1, the synthesizer returns exactly that
    many bytes; the byte at position i is [tone i], a function of i alone,
    every byte lies in [0, 255], and the result is not empty. *)
Theorem generate_g711a_audio_positive_count d n :
  samples_per_packet d = Some n -> 0 < n ->
  exists l, generate_g711a_audio d = Some l /\
    len l = n /\
    (forall i, 0 <= i < n -> nth (Z.to_nat i) l 0 = tone i) /\
    (forall b, In b l -> 0 <= b <= 255) /\
    l <> [].
Proof.
  intros Hn Hpos.
  exists (map tone (range n)).
  assert (Hlen : len (map tone (range n)) = n)
    by (unfold len; rewrite length_map, range_length; lia).
  split; [now apply generate_g711a_audio_eq|].
  split; [exact Hlen|].
  split; [|split].
  - intros i Hi; rewrite nth_map_range by lia; f_equal; lia.
  - intros b Hb; apply in_map_iff in Hb; destruct Hb as (i & <- & _).
    pose proof (tone_bounds i); lia.
  - intros E; rewrite E in Hlen; change (len []) with 0 in Hlen; lia.
Qed.

(** At 2.5 ms, a float: 20 bytes. *)
Lemma generate_g711a_audio_positive_count_witness :
  exists l,
    generate_g711a_audio
      (PyFloat (Float64.div (Float64.of_int 5) (Float64.of_int 2))) = Some l /\
    len l = 20 /\
    (forall i, 0 <= i < 20 -> nth (Z.to_nat i) l 0 = tone i) /\
    (forall b, In b l -> 0 <= b <= 255) /\
    l <> [].
Proof.
  apply (generate_g711a_audio_positive_count
           (PyFloat (Float64.div (Float64.of_int 5) (Float64.of_int 2))) 20);
    vm_compute; reflexivity.
Defined.

(** ** The RTP header builder *)

(** C8, as stated, fails: 65536 does not fit the 16-bit field and the
    builder raises instead of storing 65536 mod 2^16 = 0. *)
Lemma rtp_header_does_not_wrap :
  create_rtp_header 65536 0 default_ssrc = None /\
  create_rtp_header (65536 mod 2 ^ 16) 0 default_ssrc =
    Some [0x80; 8; 0; 0; 0; 0; 0; 0; 0x12; 0x34; 0x56; 0x78].
Proof. split; vm_compute; reflexivity. Qed.

(** C8, amended: with a 32-bit timestamp and identifier, the builder
    succeeds exactly when the sequence number lies in [0, 65535]; it then
    returns 12 bytes whose sequence-number field, in network byte order,
    holds the number unchanged.  Outside that range it raises. *)
Theorem rtp_sequence_number_field seq_num timestamp ssrc :
  0 <= timestamp < 4294967296 -> 0 <= ssrc < 4294967296 ->
  (0 <= seq_num <= 65535 ->
   exists h, create_rtp_header seq_num timestamp ssrc = Some h /\
     length h = 12%nat /\ be_value (slice 2 2 h) = seq_num) /\
  (~ (0 <= seq_num <= 65535) ->
   create_rtp_header seq_num timestamp ssrc = None).
Proof.
  intros Ht Hs; split; intros Hq.
  - exists (rtp_header_bytes seq_num timestamp ssrc).
    split; [apply create_rtp_header_eq; lia|].
    split.
    + unfold rtp_header_bytes; rewrite !length_app, !encode_length; reflexivity.
    + unfold rtp_header_bytes; cbv [slice encode];
        cbn [le_bytes rev app skipn firstn].
      apply (be_value_encode 2); change (2 ^ (8 * Z.of_nat 2)) with 65536; lia.
  - apply create_rtp_header_out_of_range; lia.
Qed.

Lemma rtp_sequence_number_field_witness :
  (0 <= 1000 <= 65535 ->
   exists h, create_rtp_header 1000 0 default_ssrc = Some h /\
     length h = 12%nat /\ be_value (slice 2 2 h) = 1000) /\
  (~ (0 <= 1000 <= 65535) ->
   create_rtp_header 1000 0 default_ssrc = None).
Proof.
  apply (rtp_sequence_number_field 1000 0 default_ssrc);
    unfold default_ssrc; lia.
Defined.

(** * Further properties of the builders *)

Lemma fits_L_false z : ~ (0 <= z < 4294967296) -> fits 4 z = false.
Proof.
  intros; apply not_true_is_false; rewrite fits_iff.
  change (2 ^ (8 * Z.of_nat 4)) with 4294967296; lia.
Qed.

Lemma create_ip_header_out_of_range payload_length :
  ~ (0 <= 20 + 8 + 12 + payload_length < 65536) ->
  create_ip_header payload_length = None.
Proof.
  intros; unfold create_ip_header; pack_fields.
  rewrite fits_H_false by assumption; reflexivity.
Qed.

Lemma create_udp_header_out_of_range payload_length :
  ~ (0 <= 8 + 12 + payload_length < 65536) ->
  create_udp_header payload_length = None.
Proof.
  intros; unfold create_udp_header; pack_fields.
  rewrite fits_H_false by assumption; reflexivity.
Qed.

(** X1: [create_ip_header] does not look at the sign or size of its
    argument: it builds a header exactly when 20 + 8 + 12 + payload_length
    fits the 16-bit field, so for -40 <= payload_length <= 65495, and raises
    otherwise.  A header it builds has 20 bytes, as its IHL nibble says,
    declares that total length, names UDP as the next protocol, leaves the
    checksum at zero and has 127.0.0.1 on both ends. *)
Theorem create_ip_header_domain payload_length :
  (-40 <= payload_length <= 65495 ->
   exists h, create_ip_header payload_length = Some h /\
     length h = 20%nat /\
     4 * (nth 0 h 0 mod 16) = len h /\
     nth 0 h 0 / 16 = 4 /\
     be_value (slice 2 2 h) = 20 + 8 + 12 + payload_length /\
     nth 9 h 0 = 17 /\
     slice 10 2 h = [0; 0] /\
     slice 12 4 h = [127; 0; 0; 1] /\
     slice 16 4 h = [127; 0; 0; 1]) /\
  (~ (-40 <= payload_length <= 65495) ->
   create_ip_header payload_length = None).
Proof.
  split; intros H.
  - exists (ip_header_bytes payload_length).
    split; [apply create_ip_header_eq; lia|].
    unfold ip_header_bytes, len.
    split; [rewrite !length_app, !encode_length; reflexivity|].
    cbv [slice encode]; cbn [le_bytes rev app skipn firstn nth length].
    repeat apply conj; try reflexivity.
    apply (be_value_encode 2); change (2 ^ (8 * Z.of_nat 2)) with 65536; lia.
  - apply create_ip_header_out_of_range; lia.
Qed.

(** X2: [create_udp_header] builds its 8 bytes exactly when
    8 + 12 + payload_length fits 16 bits (-20 <= payload_length <= 65515)
    and raises otherwise; the header carries source port 12345, destination
    port 6000, that length and a zero checksum. *)
Theorem create_udp_header_domain payload_length :
  (-20 <= payload_length <= 65515 ->
   exists h, create_udp_header payload_length = Some h /\
     length h = 8%nat /\
     be_value (slice 0 2 h) = 12345 /\
     be_value (slice 2 2 h) = 6000 /\
     be_value (slice 4 2 h) = 8 + 12 + payload_length /\
     slice 6 2 h = [0; 0]) /\
  (~ (-20 <= payload_length <= 65515) ->
   create_udp_header payload_length = None).
Proof.
  split; intros H.
  - exists (udp_header_bytes payload_length).
    split; [apply create_udp_header_eq; lia|].
    unfold udp_header_bytes.
    split; [rewrite !length_app, !encode_length; reflexivity|].
    cbv [slice encode]; cbn [le_bytes rev app skipn firstn].
    repeat apply conj; try reflexivity.
    apply (be_value_encode 2); change (2 ^ (8 * Z.of_nat 2)) with 65536; lia.
  - apply create_udp_header_out_of_range; lia.
Qed.

(** X3: the two length fields are computed apart but agree: wherever both
    headers are built, the IP total length is the UDP length plus the 20
    bytes of the IP header, and it is the byte count of the IP header, the
    UDP header, a 12-byte RTP header and the payload.  The two domains
    differ: for 65495 < payload_length <= 65515 the UDP header is built and
    the IP header raises. *)
Theorem ip_and_udp_lengths_agree payload_length :
  (-20 <= payload_length <= 65495 ->
   exists ip udp,
     create_ip_header payload_length = Some ip /\
     create_udp_header payload_length = Some udp /\
     be_value (slice 2 2 ip) = len ip + be_value (slice 4 2 udp) /\
     be_value (slice 2 2 ip) = len ip + len udp + 12 + payload_length) /\
  (65495 < payload_length <= 65515 ->
   create_ip_header payload_length = None /\
   exists udp, create_udp_header payload_length = Some udp).
Proof.
  split; intros H.
  - destruct (create_ip_header_declares payload_length) as (ip & Hip & Lip & Fip);
      [lia|].
    destruct (create_udp_header_declares payload_length) as (udp & Hudp & Ludp & Fudp);
      [lia|].
    exists ip, udp; unfold len; rewrite Fip, Fudp, Lip, Ludp.
    repeat apply conj; auto; lia.
  - split; [apply create_ip_header_out_of_range; lia|].
    eexists; apply create_udp_header_eq; lia.
Qed.

Lemma create_rtp_header_timestamp_out_of_range seq_num timestamp ssrc :
  ~ (0 <= timestamp < 4294967296) ->
  create_rtp_header seq_num timestamp ssrc = None.
Proof.
  intros Ht; unfold create_rtp_header, pack.
  change (parse_format "!BBHLL") with (Some (BigEndian, [fB; fB; fH; fL; fL])).
  cbn [obind pack_all pack_one width].
  rewrite !fits_B by lia; cbn [obind].
  rewrite (fits_L_false timestamp) by assumption.
  destruct (fits 2 seq_num); reflexivity.
Qed.

Lemma create_rtp_header_ssrc_out_of_range seq_num timestamp ssrc :
  ~ (0 <= ssrc < 4294967296) ->
  create_rtp_header seq_num timestamp ssrc = None.
Proof.
  intros Ht; unfold create_rtp_header, pack.
  change (parse_format "!BBHLL") with (Some (BigEndian, [fB; fB; fH; fL; fL])).
  cbn [obind pack_all pack_one width].
  rewrite !fits_B by lia; cbn [obind].
  rewrite (fits_L_false ssrc) by assumption.
  destruct (fits 2 seq_num), (fits 4 timestamp); reflexivity.
Qed.

Lemma rtp_header_bytes_fields seq_num timestamp ssrc :
  0 <= seq_num < 65536 -> 0 <= timestamp < 4294967296 ->
  0 <= ssrc < 4294967296 ->
  hdr_seq (rtp_header_bytes seq_num timestamp ssrc) = seq_num /\
  hdr_timestamp (rtp_header_bytes seq_num timestamp ssrc) = timestamp /\
  hdr_ssrc (rtp_header_bytes seq_num timestamp ssrc) = ssrc.
Proof.
  intros Hs Ht Hc.
  cbv [hdr_seq hdr_timestamp hdr_ssrc rtp_header_bytes slice encode];
    cbn [le_bytes rev app skipn firstn].
  repeat apply conj; field_roundtrip.
Qed.

(** X4: [create_rtp_header] returns a header exactly when the sequence
    number fits 16 bits and the timestamp and the SSRC fit 32; any other
    argument raises, the timestamp is not reduced modulo 2^32.  The 12
    bytes start with 0x80 (version 2) and 8 (payload type PCMA, marker
    clear), and reading the three fields back in network byte order gives
    the arguments. *)
Theorem create_rtp_header_roundtrip seq_num timestamp ssrc :
  (0 <= seq_num <= 65535 /\ 0 <= timestamp <= 4294967295 /\
   0 <= ssrc <= 4294967295 ->
   exists h, create_rtp_header seq_num timestamp ssrc = Some h /\
     length h = 12%nat /\
     nth 0 h 0 = 0x80 /\ nth 0 h 0 / 64 = 2 /\
     nth 1 h 0 = 8 /\
     hdr_seq h = seq_num /\ hdr_timestamp h = timestamp /\ hdr_ssrc h = ssrc) /\
  (~ (0 <= seq_num <= 65535 /\ 0 <= timestamp <= 4294967295 /\
      0 <= ssrc <= 4294967295) ->
   create_rtp_header seq_num timestamp ssrc = None).
Proof.
  split; intros H.
  - exists (rtp_header_bytes seq_num timestamp ssrc).
    split; [apply create_rtp_header_eq; lia|].
    split; [unfold rtp_header_bytes;
            rewrite !length_app, !encode_length; reflexivity|].
    destruct (rtp_header_bytes_fields seq_num timestamp ssrc) as (-> & -> & ->);
      try lia.
    repeat apply conj; reflexivity.
  - destruct (Z_le_dec 0 seq_num), (Z_le_dec seq_num 65535);
      try (apply create_rtp_header_out_of_range; lia).
    destruct (Z_le_dec 0 timestamp), (Z_le_dec timestamp 4294967295);
      try (apply create_rtp_header_timestamp_out_of_range; lia).
    apply create_rtp_header_ssrc_out_of_range; lia.
Qed.

(** X5: two calls of [create_rtp_header] that return the same header were
    given the same sequence number, timestamp and SSRC. *)
Theorem create_rtp_header_injective s1 t1 c1 s2 t2 c2 h :
  create_rtp_header s1 t1 c1 = Some h ->
  create_rtp_header s2 t2 c2 = Some h ->
  s1 = s2 /\ t1 = t2 /\ c1 = c2.
Proof.
  intros H1 H2.
  assert (R : forall s t c, create_rtp_header s t c = Some h ->
              s = hdr_seq h /\ t = hdr_timestamp h /\ c = hdr_ssrc h).
  { intros s t c Hh.
    destruct (Z_le_dec 0 s), (Z_le_dec s 65535);
      try (rewrite create_rtp_header_out_of_range in Hh by lia; discriminate).
    destruct (Z_le_dec 0 t), (Z_le_dec t 4294967295);
      try (rewrite create_rtp_header_timestamp_out_of_range in Hh by lia;
           discriminate).
    destruct (Z_le_dec 0 c), (Z_le_dec c 4294967295);
      try (rewrite create_rtp_header_ssrc_out_of_range in Hh by lia;
           discriminate).
    rewrite create_rtp_header_eq in Hh by lia; injection Hh as <-.
    destruct (rtp_header_bytes_fields s t c) as (-> & -> & ->); auto; lia. }
  destruct (R _ _ _ H1) as (-> & -> & ->), (R _ _ _ H2) as (-> & -> & ->).
  auto.
Qed.

Lemma create_rtp_header_injective_witness :
  1000 = 1000 /\ 160 = 160 /\ default_ssrc = default_ssrc.
Proof.
  apply (create_rtp_header_injective 1000 160 default_ssrc
           1000 160 default_ssrc
           [0x80; 8; 3; 232; 0; 0; 0; 160; 0x12; 0x34; 0x56; 0x78]);
    reflexivity.
Defined.

(** * Further properties of the record wrapper *)

Lemma record_header_fields sec usec n packet_data :
  0 <= sec < 4294967296 -> 0 <= usec < 4294967296 -> 0 <= n < 4294967296 ->
  let r := record_header_bytes sec usec n ++ packet_data in
  rec_ts_sec r = sec /\ rec_ts_usec r = usec /\
  rec_incl_len r = n /\ rec_orig_len r = n /\ rec_frame r = packet_data.
Proof.
  intros Hs Hu Hn r; subst r.
  cbv [rec_ts_sec rec_ts_usec rec_incl_len rec_orig_len rec_frame
       record_header_bytes slice encode];
    cbn [le_bytes app skipn firstn].
  repeat apply conj; try reflexivity; field_roundtrip.
Qed.

(** X6: [create_pcap_record] is read back exactly.  For a packet shorter
    than 2^32 bytes and any two 32-bit time values, the record is the packet
    behind 16 bytes; its fields give back the seconds, the microseconds and,
    twice, the packet's length, and the packet follows unchanged.  The
    microseconds are stored as given: nothing keeps them below 1000000, and
    nothing cuts a long packet down. *)
Theorem create_pcap_record_roundtrip packet_data sec usec :
  0 <= sec < 4294967296 -> 0 <= usec < 4294967296 ->
  len packet_data < 4294967296 ->
  exists r, create_pcap_record packet_data sec usec = Some r /\
    length r = (16 + length packet_data)%nat /\
    rec_ts_sec r = sec /\ rec_ts_usec r = usec /\
    rec_incl_len r = len packet_data /\
    rec_orig_len r = len packet_data /\
    rec_frame r = packet_data.
Proof.
  intros Hs Hu Hn.
  eexists; split; [now apply create_pcap_record_eq|].
  split.
  - unfold record_header_bytes; rewrite !length_app, !encode_length; reflexivity.
  - apply record_header_fields; unfold len in *; lia.
Qed.

Lemma create_pcap_record_roundtrip_witness :
  exists r, create_pcap_record [1; 2; 3] 5 1000000 = Some r /\
    length r = (16 + length [1; 2; 3])%nat /\
    rec_ts_sec r = 5 /\ rec_ts_usec r = 1000000 /\
    rec_incl_len r = len [1; 2; 3] /\
    rec_orig_len r = len [1; 2; 3] /\
    rec_frame r = [1; 2; 3].
Proof.
  apply (create_pcap_record_roundtrip [1; 2; 3] 5 1000000);
    unfold len; simpl; lia.
Defined.

Lemma create_pcap_record_inv packet_data sec usec r :
  create_pcap_record packet_data sec usec = Some r ->
  (0 <= sec < 4294967296 /\ 0 <= usec < 4294967296 /\
   len packet_data < 4294967296) /\
  r = record_header_bytes sec usec (len packet_data) ++ packet_data.
Proof.
  intros Hr.
  assert (Hfit : 0 <= sec < 4294967296 /\ 0 <= usec < 4294967296 /\
                 len packet_data < 4294967296).
  { revert Hr; unfold create_pcap_record, pack.
    change (parse_format "<LLLL") with (Some (LittleEndian, [fL; fL; fL; fL])).
    cbn [obind pack_all pack_one width].
    destruct (fits 4 sec) eqn:Es; [|discriminate].
    destruct (fits 4 usec) eqn:Eu; [|discriminate].
    destruct (fits 4 (len packet_data)) eqn:En; [|discriminate].
    intros _; apply fits_iff in Es, Eu, En.
    change (2 ^ (8 * Z.of_nat 4)) with 4294967296 in *; lia. }
  split; [exact Hfit|].
  rewrite create_pcap_record_eq in Hr by lia; now injection Hr.
Qed.

(** X7: [create_pcap_record] raises exactly when the seconds or the
    microseconds do not fit an unsigned 32-bit field, or the packet has 2^32
    bytes or more. *)
Theorem create_pcap_record_domain packet_data sec usec :
  create_pcap_record packet_data sec usec = None <->
  ~ (0 <= sec <= 4294967295 /\ 0 <= usec <= 4294967295 /\
     len packet_data <= 4294967295).
Proof.
  split.
  - intros Hnone [Hs [Hu Hn]].
    rewrite create_pcap_record_eq in Hnone by lia; discriminate.
  - intros H.
    destruct (create_pcap_record packet_data sec usec) as [r|] eqn:E;
      [|reflexivity].
    apply create_pcap_record_inv in E; lia.
Qed.

(** * Files of arbitrary records *)

Lemma read_records_step_any fuel packet_data sec usec r rest :
  create_pcap_record packet_data sec usec = Some r ->
  read_records (S fuel) (r ++ rest) =
  option_map (cons r) (read_records fuel rest).
Proof.
  intros Hr; apply create_pcap_record_inv in Hr.
  destruct Hr as [(Hs & Hu & Hn) ->].
  assert (Hl : 0 <= len packet_data) by (unfold len; lia).
  assert (Hlen : length (record_header_bytes sec usec (len packet_data)
                         ++ packet_data) = (16 + length packet_data)%nat).
  { unfold record_header_bytes; rewrite !length_app, !encode_length.
    reflexivity. }
  set (r := record_header_bytes sec usec (len packet_data) ++ packet_data) in *.
  assert (Hincl : le_value (slice 8 4 (r ++ rest)) = len packet_data).
  { subst r; cbv [record_header_bytes slice encode];
      cbn [le_bytes app skipn firstn]; field_roundtrip. }
  destruct (r ++ rest) as [|x t] eqn:E.
  - apply (f_equal (@length Z)) in E; rewrite length_app, Hlen in E.
    discriminate.
  - cbn [read_records]; rewrite Hincl, <- E.
    unfold len; rewrite Nat2Z.id, <- Hlen.
    replace (length (r ++ rest) <? length r)%nat with false
      by (symmetry; apply Nat.ltb_ge; rewrite length_app; lia).
    rewrite firstn_app, Nat.sub_diag, firstn_all; cbn [firstn].
    rewrite skipn_app, Nat.sub_diag, skipn_all; cbn [skipn app].
    now rewrite app_nil_r.
Qed.

Lemma read_records_built pkts : forall rs fuel,
  mapM build_record pkts = Some rs -> (length rs <= fuel)%nat ->
  read_records fuel (concat rs) = Some rs.
Proof.
  induction pkts as [|[[p s] u] pkts IH]; intros rs fuel Hrs Hfuel.
  - injection Hrs as <-; destruct fuel; reflexivity.
  - cbn [mapM build_record] in Hrs.
    destruct (create_pcap_record p s u) as [r|] eqn:Er; [|discriminate].
    cbn [obind] in Hrs.
    destruct (mapM build_record pkts) as [rs'|] eqn:Ers; [|discriminate].
    injection Hrs as <-.
    destruct fuel as [|fuel]; [simpl in Hfuel; lia|].
    cbn [concat].
    rewrite (read_records_step_any fuel p s u r _ Er).
    rewrite (IH rs' fuel eq_refl) by (simpl in Hfuel; lia); reflexivity.
Qed.

Lemma mapM_build_record pkts :
  Forall recordable pkts ->
  exists rs, mapM build_record pkts = Some rs /\
    map rec_frame rs = map (fun x => fst (fst x)) pkts /\
    (length rs <= length (concat rs))%nat.
Proof.
  induction 1 as [|[[p s] u] pkts (Hs & Hu & Hn) _ (rs & Hrs & Hfr & Hlen)].
  - exists []; repeat split; simpl; lia.
  - exists ((record_header_bytes s u (len p) ++ p) :: rs).
    cbn [mapM build_record].
    rewrite create_pcap_record_eq by lia; cbn [obind]; rewrite Hrs.
    split; [reflexivity|]; split.
    + cbn [map fst]; rewrite Hfr; reflexivity.
    + cbn [concat length]; rewrite !length_app.
      unfold record_header_bytes; rewrite !length_app, !encode_length; lia.
Qed.

(** X8: a capture file holds what was put in.  Take any packets, each with
    a 32-bit capture time, wrap each with [create_pcap_record] and write
    them after the capture header: a reader that knows only the 24-byte
    header size and each record's captured-length field recovers exactly
    those records, and their frames are the packets.  Empty packets
    included. *)
Theorem capture_file_roundtrip (pkts : list capture) :
  Forall recordable pkts ->
  exists hdr rs,
    create_pcap_header = Some hdr /\
    mapM build_record pkts = Some rs /\
    read_pcap (contents (hdr :: rs)) = Some (hdr, rs) /\
    map rec_frame rs = map (fun x => fst (fst x)) pkts.
Proof.
  intros Hp.
  destruct (mapM_build_record pkts Hp) as (rs & Hrs & Hfr & Hlen).
  exists pcap_header_bytes, rs.
  split; [apply create_pcap_header_eq|]. split; [exact Hrs|].
  split; [|exact Hfr].
  unfold read_pcap, contents; cbn [concat].
  change (skipn 24 (pcap_header_bytes ++ concat rs)) with (concat rs).
  change (firstn 24 (pcap_header_bytes ++ concat rs)) with pcap_header_bytes.
  rewrite length_app; change (length pcap_header_bytes) with 24%nat.
  replace (24 + length (concat rs) <? 24)%nat with false
    by (symmetry; apply Nat.ltb_ge; lia).
  rewrite (read_records_built pkts rs) by (auto; lia); reflexivity.
Qed.

Lemma capture_file_roundtrip_witness :
  exists hdr rs,
    create_pcap_header = Some hdr /\
    mapM build_record [([1; 2; 3], 5, 0); ([], 5, 20000)] = Some rs /\
    read_pcap (contents (hdr :: rs)) = Some (hdr, rs) /\
    map rec_frame rs =
      map (fun x => fst (fst x)) [([1; 2; 3], 5, 0); ([], 5, 20000)].
Proof.
  apply (capture_file_roundtrip [([1; 2; 3], 5, 0); ([], 5, 20000)]).
  repeat constructor; unfold len; simpl; lia.
Defined.

(** * Further properties of the payload synthesizer *)

Lemma generate_int_eq d :
  0 < d < 2 ^ 50 ->
  generate_g711a_audio (PyInt d) = Some (map tone (range (8 * d))).
Proof. intros; now apply generate_g711a_audio_eq, samples_per_packet_int. Qed.

Lemma len_map_tone n : 0 <= n -> len (map tone (range n)) = n.
Proof. intros; unfold len; rewrite length_map, range_length; lia. Qed.

Lemma tone_shift i : tone (i + 18) = tone i.
Proof.
  unfold tone; replace (i + 18) with (i + 1 * 18) by lia.
  now rewrite Z_mod_plus_full.
Qed.

Lemma tone_next i :
  (i mod 18 = 17 /\ tone i = 217 /\ tone (i + 1) = 25) \/
  (i mod 18 <> 17 /\ 11 <= tone (i + 1) - tone i <= 12).
Proof.
  unfold tone; rewrite <- (Z.add_mod_idemp_l i 1 18) by lia.
  assert (H : In (i mod 18) (range 18))
    by (apply range_In, Z.mod_pos_bound; lia).
  set (k := i mod 18) in *; clearbody k.
  cbv in H.
  repeat (destruct H as [<- | H];
          [first [left; repeat split; reflexivity
                 | right; vm_compute; repeat split; discriminate]|]).
  contradiction.
Qed.

Lemma tone_25 i : tone i = 25 -> i mod 18 = 0.
Proof.
  unfold tone.
  assert (H : In (i mod 18) (range 18))
    by (apply range_In, Z.mod_pos_bound; lia).
  set (k := i mod 18) in *; clearbody k.
  cbv in H.
  repeat (destruct H as [<- | H]; [vm_compute; intros E; congruence|]).
  contradiction.
Qed.

(** X9: the clamp [max(0, min(255, sample))] never changes a sample: at
    every position the computed sample already lies in [25, 217], the lowest
    value being taken where i % 18 = 0 and the highest where i % 18 = 17. *)
Theorem clamp_never_applies i :
  a_law_sample i = sample i /\
  (exists v, sample i = Some v /\ 25 <= v <= 217) /\
  (i mod 18 = 0 -> sample i = Some 25) /\
  (i mod 18 = 17 -> sample i = Some 217).
Proof.
  rewrite a_law_sample_eq, sample_eq.
  split; [reflexivity|]. split; [eexists; split; [reflexivity|apply tone_bounds]|].
  unfold tone; split; intros ->; reflexivity.
Qed.

(** X10: the payload repeats every 18 bytes: in the payload of an integer
    duration, the byte 18 positions after any byte equals it. *)
Theorem payload_has_period_18 d :
  0 < d < 2 ^ 50 ->
  exists l, generate_g711a_audio (PyInt d) = Some l /\
    forall i, 0 <= i -> i + 18 < len l ->
      nth (Z.to_nat (i + 18)) l 0 = nth (Z.to_nat i) l 0.
Proof.
  intros Hd; eexists; split; [now apply generate_int_eq|].
  rewrite len_map_tone by lia; intros i Hi Hlt.
  rewrite !nth_map_range, !Z2Nat.id by lia.
  apply tone_shift.
Qed.

Lemma payload_has_period_18_witness :
  exists l, generate_g711a_audio (PyInt 20) = Some l /\
    forall i, 0 <= i -> i + 18 < len l ->
      nth (Z.to_nat (i + 18)) l 0 = nth (Z.to_nat i) l 0.
Proof. apply (payload_has_period_18 20); split; reflexivity. Defined.

(** X11: within a period the payload is a rising ramp, not a sine: each
    byte exceeds the one before it by 11 or 12, except that after the byte
    at a position with i % 18 = 17, which is 217, the next byte is 25. *)
Theorem payload_is_a_sawtooth d :
  0 < d < 2 ^ 50 ->
  exists l, generate_g711a_audio (PyInt d) = Some l /\
    forall i, 0 <= i -> i + 1 < len l ->
      let a := nth (Z.to_nat i) l 0 in
      let b := nth (Z.to_nat (i + 1)) l 0 in
      (i mod 18 = 17 /\ a = 217 /\ b = 25) \/
      (i mod 18 <> 17 /\ 11 <= b - a <= 12).
Proof.
  intros Hd; eexists; split; [now apply generate_int_eq|].
  rewrite len_map_tone by lia; intros i Hi Hlt a b; subst a b.
  rewrite !nth_map_range, !Z2Nat.id by lia.
  apply tone_next.
Qed.

Lemma payload_is_a_sawtooth_witness :
  exists l, generate_g711a_audio (PyInt 20) = Some l /\
    forall i, 0 <= i -> i + 1 < len l ->
      let a := nth (Z.to_nat i) l 0 in
      let b := nth (Z.to_nat (i + 1)) l 0 in
      (i mod 18 = 17 /\ a = 217 /\ b = 25) \/
      (i mod 18 <> 17 /\ 11 <= b - a <= 12).
Proof. apply (payload_is_a_sawtooth 20); split; reflexivity. Defined.

Lemma firstn_range n m : 0 <= n <= m -> firstn (Z.to_nat n) (range m) = range n.
Proof.
  intros H; unfold range; rewrite firstn_map; f_equal.
  replace (Z.to_nat m) with (Z.to_nat n + (Z.to_nat m - Z.to_nat n))%nat
    by lia.
  rewrite seq_app, firstn_app, length_seq, Nat.sub_diag.
  rewrite firstn_all2 by (rewrite length_seq; lia).
  cbn [firstn]; apply app_nil_r.
Qed.

(** X12: a longer duration extends a shorter one: for integer durations
    d <= d', the payload of d milliseconds has 8 * d bytes and is the first
    8 * d bytes of the 8 * d' bytes of the payload of d'. *)
Theorem shorter_payload_is_a_prefix d d' :
  0 < d -> d <= d' -> d' < 2 ^ 50 ->
  exists l l', generate_g711a_audio (PyInt d) = Some l /\
    generate_g711a_audio (PyInt d') = Some l' /\
    len l = 8 * d /\ len l' = 8 * d' /\
    l = firstn (Z.to_nat (8 * d)) l'.
Proof.
  intros H1 H2 H3.
  exists (map tone (range (8 * d))), (map tone (range (8 * d'))).
  split; [apply generate_int_eq; lia|]. split; [apply generate_int_eq; lia|].
  rewrite !len_map_tone by lia.
  split; [reflexivity|]. split; [reflexivity|].
  rewrite firstn_map, firstn_range by lia; reflexivity.
Qed.

Lemma shorter_payload_is_a_prefix_witness :
  exists l l', generate_g711a_audio (PyInt 20) = Some l /\
    generate_g711a_audio (PyInt 30) = Some l' /\
    len l = 8 * 20 /\ len l' = 8 * 30 /\
    l = firstn (Z.to_nat (8 * 20)) l'.
Proof.
  apply (shorter_payload_is_a_prefix 20 30);
    [reflexivity | discriminate | reflexivity].
Defined.

(** ** Zero and negative durations *)

Lemma binary_round_aux_opp p e m ex l :
  binary_round_aux p e true m ex l = SFopp (binary_round_aux p e false m ex l).
Proof.
  unfold binary_round_aux.
  destruct (shr_fexp p e m ex l) as [mrs' e'].
  destruct (shr_fexp p e _ e' loc_Exact) as [mrs'' e''].
  destruct (shr_m mrs''); [reflexivity| |reflexivity].
  destruct (e'' <=? e - p); reflexivity.
Qed.

Lemma to_int_opp x :
  Float64.to_int (SFopp x) = option_map Z.opp (Float64.to_int x).
Proof.
  destruct x as [s|s| |s m e]; try reflexivity.
  unfold Float64.to_int, SFopp; cbn [option_map]; f_equal.
  destruct s; cbn [negb]; lia.
Qed.

Lemma int_truediv_opp p q :
  Float64.int_truediv (Zneg p) (Zpos q) =
  option_map SFopp (Float64.int_truediv (Zpos p) (Zpos q)).
Proof.
  unfold Float64.int_truediv; cbn [Z.eqb Float64.raw SFdiv xorb].
  destruct (SFdiv_core_binary Float64.prec Float64.emax (Zpos p) 0 (Zpos q) 0)
    as [[mz ez] lz].
  rewrite binary_round_aux_opp.
  destruct (binary_round_aux Float64.prec Float64.emax false mz ez lz);
    reflexivity.
Qed.

(** Negating an int duration negates the sample count, whatever its size. *)
Lemma samples_per_packet_opp d :
  0 < d ->
  samples_per_packet (PyInt (- d)) =
  option_map Z.opp (samples_per_packet (PyInt d)).
Proof.
  intros Hd; unfold samples_per_packet.
  replace (8000 * - d) with (- (8000 * d)) by lia.
  destruct (8000 * d) as [|p|p] eqn:E; try lia.
  change (- Zpos p) with (Zneg p); rewrite int_truediv_opp.
  destruct (Float64.int_truediv (Zpos p) 1000) as [x|]; [|reflexivity].
  apply to_int_opp.
Qed.

(** X13: a zero or negative integer duration is not an error: for
    -2^50 < d <= 0 the sample count is 8 * d <= 0, the loop body never runs
    and the synthesizer returns the empty byte string. *)
Theorem nonpositive_duration_gives_empty_payload d :
  - 2 ^ 50 < d -> d <= 0 ->
  samples_per_packet (PyInt d) = Some (8 * d) /\
  generate_g711a_audio (PyInt d) = Some [].
Proof.
  intros Hlo Hhi.
  assert (Hn : samples_per_packet (PyInt d) = Some (8 * d)).
  { destruct (Z.eq_dec d 0) as [-> | Hnz]; [reflexivity|].
    replace d with (- - d) at 1 by lia.
    rewrite samples_per_packet_opp, samples_per_packet_int by lia.
    cbn [option_map]; f_equal; lia. }
  split; [exact Hn|].
  rewrite (generate_g711a_audio_eq _ _ Hn).
  unfold range; replace (Z.to_nat (8 * d)) with 0%nat by lia; reflexivity.
Qed.

Lemma nonpositive_duration_gives_empty_payload_witness :
  samples_per_packet (PyInt (-20)) = Some (8 * -20) /\
  generate_g711a_audio (PyInt (-20)) = Some [].
Proof.
  apply (nonpositive_duration_gives_empty_payload (-20));
    [reflexivity | discriminate].
Defined.

(** ** Payloads of consecutive packets *)

Lemma map_of_nat_seq_shift k n : forall s,
  map Z.of_nat (seq (k + s) n) =
  map (fun x => Z.of_nat k + Z.of_nat x) (seq s n).
Proof.
  induction n as [|n IH]; intros s; [reflexivity|].
  cbn [seq map]; f_equal; [lia|].
  rewrite <- IH; f_equal; f_equal; lia.
Qed.

Lemma range_app a b :
  0 <= a -> 0 <= b -> range (a + b) = range a ++ map (Z.add a) (range b).
Proof.
  intros Ha Hb; unfold range.
  rewrite Z2Nat.inj_add, seq_app, map_app, map_map by lia; f_equal.
  rewrite Nat.add_comm, Nat.add_0_r.
  rewrite <- (Nat.add_0_r (Z.to_nat a)), map_of_nat_seq_shift.
  apply map_ext; intros x; lia.
Qed.

Lemma tone_after_multiple i j : i mod 18 = 0 -> tone (i + j) = tone j.
Proof.
  intros Hi; unfold tone; f_equal; f_equal.
  rewrite Z.add_mod, Hi, Z.add_0_l, Z.mod_mod by lia; reflexivity.
Qed.

(** X17: two packets of d milliseconds put end to end continue the tone
    only if d is a multiple of 9: the payload of d followed by itself equals
    the payload of 2 * d exactly when 9 divides d.  For the 20 ms the driver
    uses it does not: every packet restarts the ramp out of phase. *)
Theorem payloads_join_iff_multiple_of_9 d :
  0 < d < 2 ^ 49 ->
  exists l l2, generate_g711a_audio (PyInt d) = Some l /\
    generate_g711a_audio (PyInt (2 * d)) = Some l2 /\
    (l ++ l = l2 <-> d mod 9 = 0).
Proof.
  intros Hd.
  assert (H50 : 2 ^ 50 = 2 * 2 ^ 49) by reflexivity.
  exists (map tone (range (8 * d))), (map tone (range (8 * (2 * d)))).
  split; [apply generate_int_eq; lia|]. split; [apply generate_int_eq; lia|].
  replace (8 * (2 * d)) with (8 * d + 8 * d) by lia.
  rewrite range_app, map_app, map_map by lia.
  split.
  - intros E; apply app_inv_head in E.
    apply (f_equal (fun l => nth 0 l 0)) in E.
    rewrite !nth_map_range in E by lia.
    change (tone (Z.of_nat 0)) with 25 in E; symmetry in E.
    apply tone_25 in E.
    change (Z.of_nat 0) with 0 in E; rewrite Z.add_0_r in E.
    pose proof (Z.div_mod (8 * d) 18 ltac:(lia)).
    pose proof (Z.div_mod d 9 ltac:(lia)).
    pose proof (Z.mod_pos_bound d 9 ltac:(lia)). lia.
  - intros E; f_equal.
    apply map_ext; intros j; symmetry; apply tone_after_multiple.
    pose proof (Z.div_mod d 9 ltac:(lia)).
    replace (8 * d) with (0 + (4 * (d / 9)) * 18) by lia.
    now rewrite Z_mod_plus_full.
Qed.

Lemma payloads_join_iff_multiple_of_9_witness :
  exists l l2, generate_g711a_audio (PyInt 20) = Some l /\
    generate_g711a_audio (PyInt (2 * 20)) = Some l2 /\
    (l ++ l = l2 <-> 20 mod 9 = 0).
Proof. apply (payloads_join_iff_multiple_of_9 20); split; reflexivity. Defined.

(** ** Float durations *)

Lemma whole_floats_agree : forallb agrees_with_int (map (Z.add 1) (range 1000)) = true.
Proof. vm_compute; reflexivity. Qed.

(** X18: a whole number of milliseconds may be given as a float: for
    d = 1 ... 1000, [generate_g711a_audio(float(d))] returns the same payload
    as [generate_g711a_audio(d)]. *)
Theorem float_duration_agrees_with_int d :
  1 <= d <= 1000 ->
  generate_g711a_audio (PyFloat (Float64.of_int d)) =
  generate_g711a_audio (PyInt d) /\
  exists l, generate_g711a_audio (PyInt d) = Some l /\ len l = 8 * d.
Proof.
  intros Hd.
  assert (Hf : samples_per_packet (PyFloat (Float64.of_int d)) = Some (8 * d)).
  { pose proof whole_floats_agree as H.
    rewrite forallb_forall in H.
    specialize (H d); unfold agrees_with_int in H.
    destruct (samples_per_packet (PyFloat (Float64.of_int d))) as [n|].
    - f_equal; apply Z.eqb_eq, H, in_map_iff.
      exists (d - 1); split; [lia|apply range_In; lia].
    - discriminate H; apply in_map_iff.
      exists (d - 1); split; [lia|apply range_In; lia]. }
  assert (H50 : 1000 < 2 ^ 50) by reflexivity.
  rewrite (generate_g711a_audio_eq _ _ Hf), generate_int_eq by lia.
  split; [reflexivity|].
  eexists; split; [reflexivity|apply len_map_tone; lia].
Qed.

Lemma float_duration_agrees_with_int_witness :
  generate_g711a_audio (PyFloat (Float64.of_int 20)) =
  generate_g711a_audio (PyInt 20) /\
  exists l, generate_g711a_audio (PyInt 20) = Some l /\ len l = 8 * 20.
Proof. apply (float_duration_agrees_with_int 20); lia. Defined.

(** * Further properties of the driver *)


Lemma nth_records now i :
  0 <= i < 50 ->
  nth (Z.to_nat i) (map (record_of now) (range 50)) [] = record_of now i.
Proof. intros Hi; rewrite nth_map_range by lia; now rewrite Z2Nat.id by lia. Qed.

(** X15: every frame of a run is the five layers in order, each as its
    builder returns it: cut at offsets 14, 34, 42 and 54, frame i gives
    back the Ethernet header, the IP and UDP headers for the payload's
    length, the RTP header for sequence number i + 1000 and timestamp
    160 * i, and the synthesized payload.  Each layer names the next: the
    EtherType is IPv4 and the IP protocol is UDP. *)
Theorem frames_stack_the_builders now :
  0 <= now < 4294967296 ->
  exists f, run now = Some f /\
    forall i, 0 <= i < 50 ->
      let frame := rec_frame (nth (Z.to_nat i) (records f) []) in
      slice 0 14 frame = create_ethernet_header /\
      create_ip_header (len (rtp_payload frame)) = Some (slice 14 20 frame) /\
      create_udp_header (len (rtp_payload frame)) = Some (slice 34 8 frame) /\
      create_rtp_header (i + 1000) (160 * i) default_ssrc
        = Some (slice 42 12 frame) /\
      generate_g711a_audio (PyInt 20) = Some (rtp_payload frame) /\
      be_value (slice 12 2 frame) = 0x0800 /\
      nth 23 frame 0 = 17.
Proof.
  intros Hnow; eexists; split; [now apply run_eq|].
  cbn [records tl]; intros i Hi.
  rewrite nth_records by exact Hi.
  destruct (record_of_declares now Hnow i Hi) as (_ & _ & _ & _ & ->).
  destruct (frame_fields i) as (_ & _ & _ & _ & ->); [lia|].
  change (len audio_20ms) with 160.
  rewrite create_ip_header_eq, create_udp_header_eq by lia.
  rewrite create_rtp_header_eq by (unfold default_ssrc; lia).
  rewrite generate_20ms.
  repeat apply conj; reflexivity.
Qed.

Lemma frames_stack_the_builders_witness :
  exists f, run 1700000000 = Some f /\
    forall i, 0 <= i < 50 ->
      let frame := rec_frame (nth (Z.to_nat i) (records f) []) in
      slice 0 14 frame = create_ethernet_header /\
      create_ip_header (len (rtp_payload frame)) = Some (slice 14 20 frame) /\
      create_udp_header (len (rtp_payload frame)) = Some (slice 34 8 frame) /\
      create_rtp_header (i + 1000) (160 * i) default_ssrc
        = Some (slice 42 12 frame) /\
      generate_g711a_audio (PyInt 20) = Some (rtp_payload frame) /\
      be_value (slice 12 2 frame) = 0x0800 /\
      nth 23 frame 0 = 17.
Proof. apply (frames_stack_the_builders 1700000000); lia. Defined.

Lemma payloads_of_run now :
  0 <= now < 4294967296 ->
  payloads (pcap_header_bytes :: map (record_of now) (range 50)) =
  map (fun _ => audio_20ms) (range 50).
Proof.
  intros Hnow; unfold payloads; cbn [records tl].
  rewrite map_map; apply map_ext_in; intros i Hi; apply range_In in Hi.
  destruct (record_of_declares now Hnow i Hi) as (_ & _ & _ & _ & ->).
  destruct (frame_fields i) as (_ & _ & _ & _ & ->); [lia|reflexivity].
Qed.

Lemma concat_constant_length {A} (a : list Z) (l : list A) :
  length (concat (map (fun _ => a) l)) = (length l * length a)%nat.
Proof.
  induction l as [|x l IH]; [reflexivity|].
  cbn [map concat length]; rewrite length_app, IH; lia.
Qed.

(** X16: the RTP timestamp counts samples: in a run, the timestamp of
    record i is the number of payload bytes carried by the records before
    it, and the 50 payloads together hold 8000 bytes, one second at 8 kHz. *)
Theorem rtp_timestamp_counts_earlier_samples now :
  0 <= now < 4294967296 ->
  exists f, run now = Some f /\
    (forall i, 0 <= i < 50 ->
       rtp_timestamp (rec_frame (nth (Z.to_nat i) (records f) [])) =
       len (concat (firstn (Z.to_nat i) (payloads f)))) /\
    len (concat (payloads f)) = 8000.
Proof.
  intros Hnow; eexists; split; [now apply run_eq|].
  rewrite payloads_of_run by exact Hnow; cbn [records tl].
  split.
  - intros i Hi; rewrite nth_records by exact Hi.
    destruct (record_of_declares now Hnow i Hi) as (_ & _ & _ & _ & ->).
    destruct (frame_fields i) as (_ & _ & _ & -> & _); [lia|].
    unfold len; rewrite firstn_map, concat_constant_length.
    rewrite length_firstn, range_length, audio_20ms_length.
    rewrite Nat.min_l by lia; lia.
  - unfold len; rewrite concat_constant_length, range_length.
    rewrite audio_20ms_length; reflexivity.
Qed.

Lemma rtp_timestamp_counts_earlier_samples_witness :
  exists f, run 1700000000 = Some f /\
    (forall i, 0 <= i < 50 ->
       rtp_timestamp (rec_frame (nth (Z.to_nat i) (records f) [])) =
       len (concat (firstn (Z.to_nat i) (payloads f)))) /\
    len (concat (payloads f)) = 8000.
Proof. apply (rtp_timestamp_counts_earlier_samples 1700000000); lia. Defined.

(** ** One iteration, at any index *)

Lemma frame_at_length i ts : length (frame_at i ts) = 214%nat.
Proof.
  unfold frame_at, ip_header_bytes, udp_header_bytes, rtp_header_bytes.
  rewrite !length_app, !encode_length, audio_20ms_length; reflexivity.
Qed.

Lemma packet_step_at now i ts f :
  0 <= now -> now + i * 20000 / 1000000 < 4294967296 -> 0 <= i < 64536 ->
  0 <= ts < 4294967296 ->
  packet_step now i ts f = Some (ts + 160, f ++ [record_at now i ts]).
Proof.
  intros Hnow Hsec Hi Hts.
  unfold packet_step, bind, call, write, ret.
  rewrite generate_20ms.
  change (len audio_20ms) with 160.
  rewrite create_ip_header_eq, create_udp_header_eq by lia.
  rewrite create_rtp_header_eq by (unfold default_ssrc; lia).
  fold (frame_at i ts).
  assert (Hdiv : 0 <= i * 20000 / 1000000) by (apply Z.div_pos; lia).
  pose proof (Z.mod_pos_bound (i * 20000) 1000000 ltac:(lia)) as Hmod.
  rewrite create_pcap_record_eq;
    unfold len; rewrite ?frame_at_length; try lia.
  reflexivity.
Qed.

Lemma record_at_fields now i ts :
  0 <= now + i * 20000 / 1000000 < 4294967296 -> 0 <= i < 64536 ->
  0 <= ts < 4294967296 ->
  rec_ts_sec (record_at now i ts) = now + i * 20000 / 1000000 /\
  rec_ts_usec (record_at now i ts) = i * 20000 mod 1000000 /\
  rtp_seq (rec_frame (record_at now i ts)) = i + 1000 /\
  rtp_timestamp (rec_frame (record_at now i ts)) = ts.
Proof.
  intros Hsec Hi Hts.
  pose proof (Z.mod_pos_bound (i * 20000) 1000000 ltac:(lia)) as Hmod.
  cbv [record_at frame_at record_header_bytes ip_header_bytes
       udp_header_bytes rtp_header_bytes create_ethernet_header
       rec_ts_sec rec_ts_usec rec_frame rtp_seq rtp_timestamp slice encode];
    cbn [le_bytes rev app skipn firstn Nat.add].
  repeat apply conj; field_roundtrip.
Qed.

Lemma twenty_ms_steps i :
  i * 20000 / 1000000 = i / 50 /\ i * 20000 mod 1000000 = 20000 * (i mod 50).
Proof.
  change 1000000 with (50 * 20000); split.
  - apply Z.div_mul_cancel_r; lia.
  - rewrite Z.mul_mod_distr_r by lia; lia.
Qed.

(** X19: the loop body keeps time at any index, not only for the first 50:
    entered with sequence index i <= 64535 and a 32-bit media timestamp ts,
    it appends exactly one 230-byte record to the log and returns ts + 160.
    The record is stamped base + i * 20 ms, split as base + i // 50 seconds
    and 20000 * (i % 50) microseconds, so the microseconds stay below
    1000000 across the carry; it carries sequence number i + 1000 and media
    timestamp ts. *)
Theorem packet_step_keeps_time now i ts f :
  0 <= now -> now + i / 50 <= 4294967295 -> 0 <= i <= 64535 ->
  0 <= ts <= 4294967295 ->
  exists r, packet_step now i ts f = Some (ts + 160, f ++ [r]) /\
    length r = 230%nat /\
    rec_ts_sec r = now + i / 50 /\
    rec_ts_usec r = 20000 * (i mod 50) /\
    rec_ts_usec r < 1000000 /\
    rec_time_usec r = now * 1000000 + i * 20000 /\
    rtp_seq (rec_frame r) = i + 1000 /\
    rtp_timestamp (rec_frame r) = ts.
Proof.
  intros Hnow Hsec Hi Hts.
  destruct (twenty_ms_steps i) as [Hq Hr].
  assert (0 <= i / 50) by (apply Z.div_pos; lia).
  exists (record_at now i ts).
  split; [apply packet_step_at; lia|].
  split; [unfold record_at, record_header_bytes;
          rewrite !length_app, !encode_length, frame_at_length; reflexivity|].
  unfold rec_time_usec.
  destruct (record_at_fields now i ts) as (-> & -> & -> & ->); try lia.
  rewrite Hq, Hr.
  pose proof (Z.mod_pos_bound i 50 ltac:(lia)).
  pose proof (Z.div_mod i 50 ltac:(lia)).
  repeat apply conj; lia.
Qed.

Lemma packet_step_keeps_time_witness :
  exists r, packet_step 1700000000 75 12000 [] = Some (12000 + 160, [] ++ [r]) /\
    length r = 230%nat /\
    rec_ts_sec r = 1700000000 + 75 / 50 /\
    rec_ts_usec r = 20000 * (75 mod 50) /\
    rec_ts_usec r < 1000000 /\
    rec_time_usec r = 1700000000 * 1000000 + 75 * 20000 /\
    rtp_seq (rec_frame r) = 75 + 1000 /\
    rtp_timestamp (rec_frame r) = 12000.
Proof.
  apply (packet_step_keeps_time 1700000000 75 12000 []);
    [lia | vm_compute; discriminate | lia | lia].
Defined.

(** X20: the loop body does not wrap its counters.  Entered with a
    sequence index above 64535 (sequence number above 65535), or with a
    media timestamp outside 32 bits, it raises: [create_rtp_header] returns
    no header for these arguments and the iteration returns no result. *)
Theorem packet_step_raises_past_field_widths now i ts f :
  ~ (0 <= i + 1000 <= 65535) \/ ~ (0 <= ts <= 4294967295) ->
  create_rtp_header (i + 1000) ts default_ssrc = None /\
  packet_step now i ts f = None.
Proof.
  intros H.
  assert (Hrtp : create_rtp_header (i + 1000) ts default_ssrc = None).
  { destruct H as [H | H].
    - apply create_rtp_header_out_of_range; lia.
    - apply create_rtp_header_timestamp_out_of_range; lia. }
  split; [exact Hrtp|].
  unfold packet_step, bind, call.
  rewrite generate_20ms.
  change (len audio_20ms) with 160.
  rewrite create_ip_header_eq, create_udp_header_eq by lia.
  rewrite Hrtp; reflexivity.
Qed.

Lemma packet_step_raises_past_field_widths_witness :
  create_rtp_header (64536 + 1000) 0 default_ssrc = None /\
  packet_step 1700000000 64536 0 [] = None.
Proof.
  apply (packet_step_raises_past_field_widths 1700000000 64536 0 []).
  left; lia.
Defined.

(** ** The loop *)

(** X21: the loop invariant.  After the first k iterations (k <= 50) the
    variable [rtp_timestamp] is 160 * k and the log holds the capture header
    and k records; that log is the beginning of the finished run's log:
    later iterations only append. *)
Theorem loop_invariant now k :
  0 <= now < 4294967296 -> 0 <= k <= 50 ->
  exists hdr fk f,
    create_pcap_header = Some hdr /\
    for_each (range k) (packet_step now) 0 [hdr] = Some (160 * k, fk) /\
    run now = Some f /\
    length fk = S (Z.to_nat k) /\
    fk = firstn (length fk) f.
Proof.
  intros Hnow Hk.
  exists pcap_header_bytes, (pcap_header_bytes :: map (record_of now) (range k)),
         (pcap_header_bytes :: map (record_of now) (range 50)).
  split; [apply create_pcap_header_eq|].
  split.
  - unfold range.
    change 0 with (160 * Z.of_nat 0) at 1.
    rewrite for_each_records by (try exact Hnow; lia).
    cbn [app Nat.add]; do 2 f_equal; lia.
  - split; [now apply run_eq|].
    cbn [length]; rewrite length_map, range_length.
    split; [reflexivity|].
    cbn [firstn]; rewrite firstn_map, firstn_range by lia; reflexivity.
Qed.

Lemma loop_invariant_witness :
  exists hdr fk f,
    create_pcap_header = Some hdr /\
    for_each (range 7) (packet_step 1700000000) 0 [hdr] = Some (160 * 7, fk) /\
    run 1700000000 = Some f /\
    length fk = S (Z.to_nat 7) /\
    fk = firstn (length fk) f.
Proof. apply (loop_invariant 1700000000 7); lia. Defined.

(** ** What varies from packet to packet *)

Lemma frame_of_split i :
  frame_of i =
  frame_head ++
  (encode BigEndian 2 (i + 1000) ++ encode BigEndian 4 (160 * i)) ++
  frame_tail.
Proof.
  cbv [frame_of frame_head frame_tail ip_header_bytes udp_header_bytes
       rtp_header_bytes create_ethernet_header encode];
    cbn [le_bytes rev app]; reflexivity.
Qed.

Lemma frame_of_outside_counters i j k :
  ~ (44 <= k < 50)%nat ->
  nth_error (frame_of i) k = nth_error (frame_of j) k.
Proof.
  intros Hk; rewrite !frame_of_split.
  assert (Hh : length frame_head = 44%nat) by reflexivity.
  destruct (Nat.lt_ge_cases k 44) as [Hlt | Hge].
  - rewrite !nth_error_app1 by (rewrite Hh; exact Hlt); reflexivity.
  - rewrite !(nth_error_app2 frame_head) by (rewrite Hh; lia).
    rewrite !nth_error_app2
      by (rewrite length_app, !encode_length, Hh; lia).
    now rewrite !length_app, !encode_length.
Qed.

(** X22: within a run only six bytes change from one frame to the next, the
    RTP sequence number and timestamp at frame offsets 44 to 49.  Every
    other byte is the same in all 50 frames: the addresses, the IP
    identification (it is not incremented), the zero checksums, the SSRC
    and the payload.  Those six bytes do tell the frames apart. *)
Theorem frames_differ_only_in_rtp_counters now :
  0 <= now < 4294967296 ->
  exists f, run now = Some f /\
    forall i j, 0 <= i < 50 -> 0 <= j < 50 ->
      let fi := rec_frame (nth (Z.to_nat i) (records f) []) in
      let fj := rec_frame (nth (Z.to_nat j) (records f) []) in
      (forall k, ~ (44 <= k < 50)%nat -> nth_error fi k = nth_error fj k) /\
      (i <> j -> slice 44 6 fi <> slice 44 6 fj).
Proof.
  intros Hnow; eexists; split; [now apply run_eq|].
  cbn [records tl]; intros i j Hi Hj.
  rewrite !nth_records by assumption.
  destruct (record_of_declares now Hnow i Hi) as (_ & _ & _ & _ & ->).
  destruct (record_of_declares now Hnow j Hj) as (_ & _ & _ & _ & ->).
  split; [intros k Hk; now apply frame_of_outside_counters|].
  intros Hij E; apply Hij.
  apply (f_equal (fun s => be_value (firstn 2 s))) in E.
  change (be_value (firstn 2 (slice 44 6 (frame_of i))))
    with (rtp_seq (frame_of i)) in E.
  change (be_value (firstn 2 (slice 44 6 (frame_of j))))
    with (rtp_seq (frame_of j)) in E.
  destruct (frame_fields i) as (_ & _ & Si & _); [lia|].
  destruct (frame_fields j) as (_ & _ & Sj & _); [lia|].
  lia.
Qed.

Lemma frames_differ_only_in_rtp_counters_witness :
  exists f, run 1700000000 = Some f /\
    forall i j, 0 <= i < 50 -> 0 <= j < 50 ->
      let fi := rec_frame (nth (Z.to_nat i) (records f) []) in
      let fj := rec_frame (nth (Z.to_nat j) (records f) []) in
      (forall k, ~ (44 <= k < 50)%nat -> nth_error fi k = nth_error fj k) /\
      (i <> j -> slice 44 6 fi <> slice 44 6 fj).
Proof. apply (frames_differ_only_in_rtp_counters 1700000000); lia. Defined.
